(** * Expense Tracker: the in-memory ledger of [frontend/js/script.js]

    A shallow embedding of the client-side logic of the Expense Tracker:
    the transaction store, form validation, table rendering, summary
    aggregation and currency formatting.  Two revisions of the script are
    embedded: [Script] follows [src/frontend/js/script.js] and [Part000]
    follows [src/unnamed/part_000].

    JavaScript values are modelled as the language has them:
    - a string is its sequence of UTF-16 code units ([jsstring]);
    - a number that carries an amount is an IEEE 754 binary64 value
      ([number], the standard library's [spec_float] at precision 53);
    - the id counter holds an integer; it is kept as that integer ([Z]),
      and [++] on it is the binary64 addition of 1 ([js_increment]), which
      is exact below 2^53 and leaves 2^53 where it is. *)

From Stdlib Require Import ZArith NArith List Sorted Bool String Ascii Lia.
From Stdlib Require Import SpecFloat DecimalN.
Import ListNotations.

Local Open Scope Z_scope.

(** ** Strings as sequences of UTF-16 code units *)

Definition jsstring := list N.

(** A string literal of the source, as code units. *)
Definition js (s : string) : jsstring :=
  map N_of_ascii (list_ascii_of_string s).

Definition jsstring_eqb (a b : jsstring) : bool :=
  if list_eq_dec N.eq_dec a b then true else false.

(** [!s] on a string: only the empty string is falsy. *)
Definition falsy (s : jsstring) : bool :=
  match s with [] => true | _ :: _ => false end.

(** [s.length], of a string or an array *)
Definition jslength {A : Type} (s : list A) : Z := Z.of_nat (List.length s).

(** ECMAScript WhiteSpace and LineTerminator code points, the set that
    [String.prototype.trim] and [parseFloat] strip. *)
Definition isWhiteSpace (c : N) : bool :=
  existsb (N.eqb c)
    [9; 10; 11; 12; 13; 32; 160; 5760;
     8192; 8193; 8194; 8195; 8196; 8197; 8198; 8199; 8200; 8201; 8202;
     8232; 8233; 8239; 8287; 12288; 65279]%N.

Fixpoint trimStart (s : jsstring) : jsstring :=
  match s with
  | c :: r => if isWhiteSpace c then trimStart r else s
  | [] => []
  end.

Definition trimEnd (s : jsstring) : jsstring := rev (trimStart (rev s)).

(** [String.prototype.trim] *)
Definition trim (s : jsstring) : jsstring := trimEnd (trimStart s).

(** ** Numbers: IEEE 754 binary64 *)

Definition number := spec_float.

Definition prec : Z := 53.
Definition emax : Z := 1024.

Definition js_add : number -> number -> number := SFadd prec emax.
Definition js_sub : number -> number -> number := SFsub prec emax.
Definition js_lt : number -> number -> bool := SFltb.
Definition js_le : number -> number -> bool := SFleb.
Definition js_abs : number -> number := SFabs.

Definition isNaN (x : number) : bool :=
  match x with S754_nan => true | _ => false end.

Definition isFinite (x : number) : bool :=
  match x with S754_zero _ | S754_finite _ _ _ => true | _ => false end.

Definition NaN : number := S754_nan.
Definition Infinity : number := S754_infinity false.
Definition zero : number := S754_zero false.

(** The binary64 value nearest to [m * 10^e] (ties to even), with sign
    [neg]: the rounding that turns a decimal literal into a number. *)
Definition of_decimal (neg : bool) (m : N) (e : Z) : number :=
  match m with
  | N0 => S754_zero neg
  | Npos p =>
      match e with
      | Zneg d =>
          SFdiv prec emax (S754_finite neg p 0)
                (S754_finite false (Pos.pow 10 d) 0)
      | _ => binary_normalize prec emax
               (cond_Zopp neg (Zpos p * 10 ^ e)) 0 neg
      end
  end.

(** An integer as a number. *)
Definition of_Z (z : Z) : number := binary_normalize prec emax z 0 false.

(** The integer part of a finite number. *)
Definition to_Z (x : number) : Z :=
  match x with
  | S754_finite s m (Zneg k) => cond_Zopp s (Zpos m / 2 ^ Zpos k)
  | S754_finite s m e => cond_Zopp s (Zpos m * 2 ^ e)
  | _ => 0
  end.

(** [n++] on a variable holding the integer [n]: the value it holds
    afterwards, the binary64 sum of [n] and 1. *)
Definition js_increment (n : Z) : Z := to_Z (js_add (of_Z n) (of_Z 1)).

Arguments js_increment : simpl never.

(** The integer at which [js_increment] stops advancing. *)
Definition limit : Z := 2 ^ 53.

(** *** [parseFloat] *)

Definition isDigit (c : N) : bool := ((48 <=? c) && (c <=? 57))%N.

Definition digitValue (c : N) : N := (c - 48)%N.

(** Splits off the longest run of decimal digits. *)
Fixpoint spanDigits (s : jsstring) : jsstring * jsstring :=
  match s with
  | c :: r =>
      if isDigit c then let '(d, t) := spanDigits r in (c :: d, t)
      else ([], s)
  | [] => ([], [])
  end.

(** The value of a run of decimal digits. *)
Definition digitsValue (d : jsstring) : N :=
  fold_left (fun acc c => (10 * acc + digitValue c)%N) d 0%N.

Fixpoint startsWith (p s : jsstring) : bool :=
  match p, s with
  | [], _ => true
  | a :: p', b :: s' => N.eqb a b && startsWith p' s'
  | _ :: _, [] => false
  end.

(** An optional sign: [true] for a minus. *)
Definition readSign (s : jsstring) : bool * jsstring :=
  match s with
  | 45%N :: r => (true, r)
  | 43%N :: r => (false, r)
  | _ => (false, s)
  end.

(** ExponentPart, when a complete one is present; 0 otherwise. *)
Definition readExponent (s : jsstring) : Z :=
  match s with
  | c :: r =>
      if (N.eqb c 101 || N.eqb c 69)%bool then
        let '(neg, r') := readSign r in
        match fst (spanDigits r') with
        | [] => 0
        | d => cond_Zopp neg (Z.of_N (digitsValue d))
        end
      else 0
  | [] => 0
  end.

(** StrUnsignedDecimalLiteral: longest prefix, as mantissa digits and a
    decimal exponent; [None] when no prefix is a literal. *)
Definition readUnsignedDecimal (s : jsstring) : option (N * Z) :=
  let '(ip, r1) := spanDigits s in
  match r1 with
  | 46%N :: r2 =>
      let '(fp, r3) := spanDigits r2 in
      match ip, fp with
      | [], [] => None
      | _, _ =>
          Some (digitsValue (ip ++ fp),
                readExponent r3 - Z.of_nat (List.length fp))
      end
  | _ =>
      match ip with
      | [] => None
      | _ => Some (digitsValue ip, readExponent r1)
      end
  end.

Definition parseFloat (s : jsstring) : number :=
  let '(neg, r) := readSign (trimStart s) in
  if startsWith (js "Infinity") r then S754_infinity neg
  else
    match readUnsignedDecimal r with
    | Some (m, e) => of_decimal neg m e
    | None => NaN
    end.

(** *** Decimal output: [toLocaleString] and [toFixed] *)

Fixpoint uint_chars (u : Decimal.uint) : jsstring :=
  match u with
  | Decimal.Nil => []
  | Decimal.D0 r => 48%N :: uint_chars r
  | Decimal.D1 r => 49%N :: uint_chars r
  | Decimal.D2 r => 50%N :: uint_chars r
  | Decimal.D3 r => 51%N :: uint_chars r
  | Decimal.D4 r => 52%N :: uint_chars r
  | Decimal.D5 r => 53%N :: uint_chars r
  | Decimal.D6 r => 54%N :: uint_chars r
  | Decimal.D7 r => 55%N :: uint_chars r
  | Decimal.D8 r => 56%N :: uint_chars r
  | Decimal.D9 r => 57%N :: uint_chars r
  end.

(** The decimal digits of a non-negative integer, no leading zero. *)
Definition digits (n : Z) : jsstring := uint_chars (N.to_uint (Z.to_N n)).

(** For a finite [x], the integer [n] for which [n / 10^f] is nearest to
    the exact value of [|x|]; of two such, the larger. *)
Definition roundScaled (f : Z) (x : number) : Z :=
  match x with
  | S754_finite _ m (Zneg k) =>
      (2 * Zpos m * 10 ^ f + 2 ^ Zpos k) / 2 ^ (Zpos k + 1)
  | S754_finite _ m e => Zpos m * 2 ^ e * 10 ^ f
  | _ => 0
  end.

(** Pads with zeros on the left up to [k] digits. *)
Definition padStart (k : nat) (d : jsstring) : jsstring :=
  repeat 48%N (k - List.length d) ++ d.

(** Thousands separators over a reversed run of digits; [k] counts the
    digits since the last separator. *)
Fixpoint groupRev (d : jsstring) (k : nat) : jsstring :=
  match d with
  | [] => []
  | c :: r =>
      match k with
      | 3%nat => 44%N :: c :: groupRev r 1
      | _ => c :: groupRev r (S k)
      end
  end.

Definition group (d : jsstring) : jsstring := rev (groupRev (rev d) 0).

Definition signOf (x : number) : bool :=
  match x with
  | S754_zero s | S754_infinity s | S754_finite s _ _ => s
  | S754_nan => false
  end.

(** The exact value of a finite number, as a fraction. *)
Definition fraction (x : number) : Z * Z :=
  match x with
  | S754_finite _ m (Zneg k) => (Zpos m, 2 ^ Zpos k)
  | S754_finite _ m e => (Zpos m * 2 ^ e, 1)
  | _ => (0, 1)
  end.

(** [10^n <= num / den] *)
Definition reaches (num den n : Z) : bool :=
  match n with
  | Zneg p => den <=? num * 10 ^ Zpos p
  | _ => den * 10 ^ n <=? num
  end.

(** One step towards the [n] with [10^(n-1) <= num / den < 10^n]. *)
Definition adjust (num den n : Z) : Z :=
  if reaches num den n then n + 1
  else if reaches num den (n - 1) then n
  else n - 1.

(** The number of decimal digits of the whole part of a positive finite
    [x], or minus the number of zeros after the point: the [n] with
    [10^(n-1) <= x < 10^n]. *)
Definition magnitude (x : number) : Z :=
  let '(num, den) := fraction x in
  let b := match x with
           | S754_finite _ m e => Zpos (digits2_pos m) + e
           | _ => 0
           end in
  let n := b * 30103 / 100000 in
  adjust num den (adjust num den (adjust num den (adjust num den n))).

(** [floor (num / den / 10^q)] *)
Definition scaledFloor (num den q : Z) : Z :=
  match q with
  | Zneg p => num * 10 ^ Zpos p / den
  | _ => num / (den * 10 ^ q)
  end.

(** Whether the decimal [c * 10^q] reads back as the magnitude of [x]. *)
Definition readsBack (x : number) (c q : Z) : bool :=
  SFeqb (of_decimal false (Z.to_N c) q) (js_abs x).

(** Whether [num / den] is nearer to [(c + 1) * 10^q] than to
    [c * 10^q], an odd [c] losing a tie. *)
Definition nearerUp (num den c q : Z) : bool :=
  let '(l, r) := match q with
                 | Zneg p => (2 * num * 10 ^ Zpos p, (2 * c + 1) * den)
                 | _ => (2 * num, (2 * c + 1) * den * 10 ^ q)
                 end in
  match l ?= r with
  | Gt => true
  | Eq => Z.odd c
  | Lt => false
  end.

(** The shortest decimal [s * 10^q] that reads back as the magnitude of
    the finite [x], nearest to it among those of its length: the digits
    number formatting starts from.  [k] is the number of digits tried,
    [fuel] the lengths left to try. *)
Fixpoint shortestFrom (x : number) (n k : Z) (fuel : nat) : Z * Z :=
  let '(num, den) := fraction x in
  let q := n - k in
  let lo := scaledFloor num den q in
  match fuel with
  | O => (lo, q)
  | S fuel' =>
      match readsBack x lo q, readsBack x (lo + 1) q with
      | true, true => (if nearerUp num den lo q then lo + 1 else lo, q)
      | true, false => (lo, q)
      | false, true => (lo + 1, q)
      | false, false => shortestFrom x n (k + 1) fuel'
      end
  end.

Definition shortest (x : number) : Z * Z :=
  match x with
  | S754_finite _ _ _ => shortestFrom x (magnitude x) 1 17
  | _ => (0, 0)
  end.

(** The decimal [s * 10^q] rounded to [f] fraction digits, ties away from
    zero, as a count of units of [10^-f]. *)
Definition roundDecimal (f : Z) (d : Z * Z) : Z :=
  let '(s, q) := d in
  match q + f with
  | Zneg t => (2 * s + 10 ^ Zpos t) / (2 * 10 ^ Zpos t)
  | e => s * 10 ^ e
  end.

(** [x.toLocaleString('en-US', {minimumFractionDigits: 2,
    maximumFractionDigits: 2})]: the shortest decimal that reads back as
    [x], rounded to two fraction digits, ties away from zero; grouped
    integer digits, a point and the two fraction digits; the locale's
    symbols for NaN and infinity. *)
Definition toLocaleString (x : number) : jsstring :=
  match x with
  | S754_nan => js "NaN"
  | _ =>
      (if signOf x then js "-" else []) ++
      (if isFinite x then
         let n := roundDecimal 2 (shortest x) in
         group (digits (n / 100)) ++ js "." ++
         padStart 2 (digits (n mod 100))
       else [8734%N])
  end.

Definition ten21 : number := of_Z (10 ^ 21).

(** [x.toFixed(2)].  [Number_toString] stands for the language's
    [Number::toString], which [toFixed] falls back to when [x] is not
    finite or not below 10^21. *)
Definition toFixed2 (Number_toString : number -> jsstring) (x : number)
  : jsstring :=
  if negb (isFinite x) then Number_toString x
  else
    let s := if js_lt x zero then js "-" else [] in
    let x := if js_lt x zero then SFopp x else x in
    if js_le ten21 x then s ++ Number_toString x
    else
      let m := padStart 3 (digits (roundScaled 2 x)) in
      let k := List.length m in
      s ++ firstn (k - 2) m ++ js "." ++ skipn (k - 2) m.


(** ** Values handed back by calls *)

(** A function with no [return] statement yields [undefined]. *)
Inductive jsvalue :=
| undefined
| boolean (b : bool).

(** ** The script of [src/frontend/js/script.js] *)

Module Script.

(** *** Configuration and selectors *)

Definition maxDescLen : Z := 100.
Definition defaultType : jsstring := js "income".

(** The form inputs of [SEL] that validation marks. *)
Inductive selector := SEL_description | SEL_amount | SEL_date.

Definition selector_eq_dec (a b : selector) : {a = b} + {a <> b}.
Proof. decide equality. Defined.

(** *** The in-memory data store *)

Record transaction := {
  id : Z;
  description : jsstring;
  amount : number;
  type : jsstring;
  date : jsstring;
  createdAt : jsstring
}.

(** The two variables of the store: the master list and the private
    auto-increment counter. *)
Record store := {
  transactions : list transaction;
  _nextId : Z
}.

(** [let transactions = []; let _nextId = 1;] *)
Definition init : store := {| transactions := []; _nextId := 1 |}.

(** What [readFormValues] returns and [addTransaction] receives; the
    amount is still the text of the field. *)
Record formData := {
  data_description : jsstring;
  data_amount : jsstring;
  data_type : jsstring;
  data_date : jsstring
}.

(** [addTransaction(data)]; [now] is the text of
    [new Date().toISOString()] at the call.  Returns the created
    transaction and the store after the push. *)
Definition addTransaction (now : jsstring) (data : formData) (s : store)
  : transaction * store :=
  let tx := {| id := _nextId s;
               description := data_description data;
               amount := parseFloat (data_amount data);
               type := data_type data;
               date := data_date data;
               createdAt := now |} in
  (tx, {| transactions := transactions s ++ [tx];
          _nextId := js_increment (_nextId s) |}).

(** [removeTransaction(id)]: the list is replaced by the filtered one;
    nothing is returned. *)
Definition removeTransaction (i : Z) (s : store) : jsvalue * store :=
  (undefined,
   {| transactions := filter (fun tx => negb (id tx =? i)) (transactions s);
      _nextId := _nextId s |}).

(** *** Validation *)

(** The values of the four form fields, as [.val()] gives them. *)
Record form := {
  txDescription : jsstring;
  txAmount : jsstring;
  txType : jsstring;
  txDate : jsstring
}.

Definition readFormValues (f : form) : formData :=
  {| data_description := trim (txDescription f);
     data_amount := txAmount f;
     data_type := txType f;
     data_date := txDate f |}.

(** An input carrying [.is-invalid], with the feedback text when
    [markInvalid] replaced it. *)
Definition mark : Type := selector * option jsstring.

(** The running state of [validateInputs]: the flag [valid] and the
    inputs marked so far. *)
Definition validation : Type := bool * list mark.

Definition markInvalid (sel : selector) (customMsg : option jsstring)
  (v : validation) : validation :=
  (false, snd v ++ [(sel, customMsg)]).

Definition descTooLongMsg : jsstring :=
  js "Description must be " ++ digits maxDescLen ++ js " characters or fewer.".

Definition validateInputs (data : formData) : validation :=
  (* valid = true; clearValidationState() *)
  let v : validation := (true, []) in
  let v :=
    if falsy (data_description data) || (jslength (data_description data) <? 1)
    then markInvalid SEL_description None v
    else if jslength (data_description data) >? maxDescLen
    then markInvalid SEL_description (Some descTooLongMsg) v
    else v in
  let amt := parseFloat (data_amount data) in
  let v :=
    if jsstring_eqb (data_amount data) [] || isNaN amt || js_le amt zero
    then markInvalid SEL_amount None v
    else v in
  let v :=
    if falsy (data_date data) then markInvalid SEL_date None v else v in
  v.

(** Whether [validateInputs] marked the input [sel]. *)
Definition marked (sel : selector) (v : validation) : bool :=
  existsb (fun m => if selector_eq_dec (fst m) sel then true else false)
          (snd v).

(** *** Currency formatting *)

(** [formatCurrency(value)] *)
Definition formatCurrency (value : number) : jsstring :=
  let sign := if js_lt value zero then js "-" else [] in
  let abs := js_abs value in
  let formatted := toLocaleString abs in
  sign ++ js "$" ++ formatted.

(** *** Table rendering *)

(** A [<tr>] built by [buildRow]: the values put into the template.  The
    description and date cells show [escapeHtml(tx.description)] and
    [formatDate(tx.date)] of the transaction kept in [row_tx]. *)
Record row := {
  data_tx_id : Z;
  row_serial : Z;
  row_tx : transaction;
  amountClass : jsstring;
  arrowIcon : jsstring;
  amount_cell : jsstring;
  data_id : Z
}.

Definition buildRow (tx : transaction) (serial : Z) : row :=
  {| data_tx_id := id tx;
     row_serial := serial;
     row_tx := tx;
     amountClass := if jsstring_eqb (type tx) (js "income")
                    then js "tx-amount-income" else js "tx-amount-expense";
     arrowIcon := if jsstring_eqb (type tx) (js "income")
                  then js "bi-arrow-down-short" else js "bi-arrow-up-short";
     amount_cell := formatCurrency (amount tx);
     data_id := id tx |}.

(** A child of [#transactionBody]. *)
Inductive tr :=
| emptyRow
| txRow (r : row).

(** [displayList.forEach(function (tx, index) {...})] from [index] on. *)
Fixpoint forEachRow (displayList : list transaction) (index : Z) : list tr :=
  match displayList with
  | [] => []
  | tx :: rest =>
      let serial := index + 1 in
      txRow (buildRow tx serial) :: forEachRow rest (index + 1)
  end.

(** [updateCountBadge()]: the label of [#txCount]. *)
Definition updateCountBadge (transactions : list transaction) : jsstring :=
  let n := jslength transactions in
  if n =? 1 then js "1 record" else digits n ++ js " records".

(** What [renderTable] leaves in the page. *)
Record table := {
  txCount : jsstring;
  tbody : list tr
}.

Definition renderTable (transactions : list transaction) : table :=
  {| txCount := updateCountBadge transactions;
     tbody :=
       if jslength transactions =? 0 then [emptyRow]
       else
         let displayList := rev transactions in
         forEachRow displayList 0 |}.

(** The rows of a rendered body, top to bottom. *)
Definition rows (b : list tr) : list row :=
  flat_map (fun t => match t with txRow r => [r] | emptyRow => [] end) b.

(** *** Summary cards *)

(** The totals [updateSummary] computes and what it shows: the three card
    texts and whether the balance carries [text-danger]. *)
Record summary := {
  totalIncome : number;
  totalExpense : number;
  netBalance : number;
  totalIncome_text : jsstring;
  totalExpense_text : jsstring;
  balance_text : jsstring;
  balance_text_danger : bool
}.

(** One step of the single-pass aggregation over
    [(totalIncome, totalExpense)]. *)
Definition accumulate (acc : number * number) (tx : transaction)
  : number * number :=
  if jsstring_eqb (type tx) (js "income")
  then (js_add (fst acc) (amount tx), snd acc)
  else (fst acc, js_add (snd acc) (amount tx)).

Definition updateSummary (transactions : list transaction) : summary :=
  let '(totalIncome, totalExpense) :=
    fold_left accumulate transactions (zero, zero) in
  let netBalance := js_sub totalIncome totalExpense in
  {| totalIncome := totalIncome;
     totalExpense := totalExpense;
     netBalance := netBalance;
     totalIncome_text := formatCurrency totalIncome;
     totalExpense_text := formatCurrency totalExpense;
     balance_text := formatCurrency netBalance;
     balance_text_danger := js_lt netBalance zero |}.

(** *** Form handlers *)

Inductive alertType := success | danger | warning | info.

(** What a handler leaves behind: the store, the inline alert it showed,
    the inputs marked invalid, and the table and cards when it rebuilt
    them. *)
Record page := {
  page_store : store;
  inlineAlert : option alertType;
  is_invalid : list mark;
  page_table : option table;
  page_summary : option summary
}.

Definition handleFormSubmit (now : jsstring) (f : form) (s : store) : page :=
  let formData := readFormValues f in
  let v := validateInputs formData in
  if negb (fst v) then
    {| page_store := s;
       inlineAlert := Some danger;
       is_invalid := snd v;
       page_table := None;
       page_summary := None |}
  else
    let '(newTx, s') := addTransaction now formData s in
    {| page_store := s';
       inlineAlert := Some success;
       is_invalid := [];
       page_table := Some (renderTable (transactions s'));
       page_summary := Some (updateSummary (transactions s')) |}.

(** [handleDelete()], once the row has faded out; [idToRemove] is the
    [data-id] of the clicked button. *)
Definition handleDelete (idToRemove : Z) (s : store) : page :=
  let s' := snd (removeTransaction idToRemove s) in
  {| page_store := s';
     inlineAlert := Some warning;
     is_invalid := [];
     page_table := Some (renderTable (transactions s'));
     page_summary := Some (updateSummary (transactions s')) |}.

(** *** Histories of the store *)

(** The two operations that touch the store. *)
Inductive op :=
| Add (now : jsstring) (data : formData)
| Remove (i : Z).

Definition step (s : store) (o : op) : store :=
  match o with
  | Add now data => snd (addTransaction now data s)
  | Remove i => snd (removeTransaction i s)
  end.

Definition run (s : store) (ops : list op) : store := fold_left step ops s.

(** The ids handed out along a history, oldest first. *)
Fixpoint assigned (s : store) (ops : list op) : list Z :=
  match ops with
  | [] => []
  | Add now data :: rest =>
      id (fst (addTransaction now data s)) :: assigned (step s (Add now data)) rest
  | Remove i :: rest => assigned (step s (Remove i)) rest
  end.

(** [list()]: the ids of the records in the store, in insertion order. *)
Definition ids (s : store) : list Z := map id (transactions s).

End Script.

(** ** The script of [src/unnamed/part_000] *)

Module Part000.

(** The form inputs that validation marks, by their selectors
    [#txDescription], [#txAmount] and [#txDate]. *)
Inductive selector := txDescription_input | txAmount_input | txDate_input.

Definition selector_eq_dec (a b : selector) : {a = b} + {a <> b}.
Proof. decide equality. Defined.

(** *** Data store *)

Record transaction := {
  id : Z;
  description : jsstring;
  amount : number;
  type : jsstring;
  date : jsstring
}.

Record store := {
  transactions : list transaction;
  nextId : Z
}.

(** [let transactions = []; let nextId = 1;] *)
Definition init : store := {| transactions := []; nextId := 1 |}.

(** *** Validation *)

(** The values of the four form fields, as [.val()] gives them. *)
Record form := {
  txDescription : jsstring;
  txAmount : jsstring;
  txType : jsstring;
  txDate : jsstring
}.

(** The flag [isValid] and the inputs carrying [.is-invalid]. *)
Definition validation : Type := bool * list selector.

Definition markInvalid (sel : selector) (v : validation) : validation :=
  (false, snd v ++ [sel]).

Definition validateInputs (description : jsstring) (amount : number)
  (date : jsstring) : validation :=
  (* isValid = true; clearValidation() *)
  let v : validation := (true, []) in
  let v := if falsy description then markInvalid txDescription_input v else v in
  let v := if isNaN amount || js_le amount zero
           then markInvalid txAmount_input v else v in
  let v := if falsy date then markInvalid txDate_input v else v in
  v.

Definition marked (sel : selector) (v : validation) : bool :=
  existsb (fun m => if selector_eq_dec m sel then true else false) (snd v).

(** *** Currency formatting *)

Definition formatCurrency (value : number) : jsstring :=
  let prefix := if js_lt value zero then js "-$" else js "$" in
  prefix ++ toLocaleString (js_abs value).

(** *** Table rendering *)

Section Rendering.

(** The language's [Number::toString], behind [toFixed]. *)
Variable Number_toString : number -> jsstring.

(** A [<tr>] built by [buildRow]: the values put into the template. *)
Record row := {
  row_serial : Z;
  row_tx : transaction;
  amountClass : jsstring;
  amount_cell : jsstring;
  data_id : Z
}.

Definition buildRow (tx : transaction) (serial : Z) : row :=
  {| row_serial := serial;
     row_tx := tx;
     amountClass := if jsstring_eqb (type tx) (js "income")
                    then js "tx-amount-income" else js "tx-amount-expense";
     amount_cell := js "$" ++ toFixed2 Number_toString (amount tx);
     data_id := id tx |}.

Inductive tr :=
| emptyRow
| txRow (r : row).

(** [[...transactions].reverse().forEach((tx, i) => ...)] from [i] on. *)
Fixpoint forEachRow (l : list transaction) (i : Z) : list tr :=
  match l with
  | [] => []
  | tx :: rest => txRow (buildRow tx (i + 1)) :: forEachRow rest (i + 1)
  end.

Definition updateCountBadge (transactions : list transaction) : jsstring :=
  let n := jslength transactions in
  if n =? 1 then js "1 record" else digits n ++ js " records".

Record table := {
  txCount : jsstring;
  tbody : list tr
}.

Definition renderTable (transactions : list transaction) : table :=
  {| txCount := updateCountBadge transactions;
     tbody :=
       if jslength transactions =? 0 then [emptyRow]
       else forEachRow (rev transactions) 0 |}.

Definition rows (b : list tr) : list row :=
  flat_map (fun t => match t with txRow r => [r] | emptyRow => [] end) b.

End Rendering.

(** *** Summary cards *)

Record summary := {
  income : number;
  expense : number;
  balance : number;
  totalIncome_text : jsstring;
  totalExpense_text : jsstring;
  balance_text : jsstring
}.

Definition accumulate (acc : number * number) (tx : transaction)
  : number * number :=
  if jsstring_eqb (type tx) (js "income")
  then (js_add (fst acc) (amount tx), snd acc)
  else (fst acc, js_add (snd acc) (amount tx)).

Definition updateSummary (transactions : list transaction) : summary :=
  let '(income, expense) := fold_left accumulate transactions (zero, zero) in
  {| income := income;
     expense := expense;
     balance := js_sub income expense;
     totalIncome_text := formatCurrency income;
     totalExpense_text := formatCurrency expense;
     balance_text := formatCurrency (js_sub income expense) |}.

(** *** Form handlers *)

(** What [handleFormSubmit] leaves behind: the store, the inputs marked
    invalid and whether the form shook. *)
Record page := {
  page_store : store;
  is_invalid : list selector;
  shake : bool
}.

Definition handleFormSubmit (f : form) (s : store) : page :=
  let description := trim (txDescription f) in
  let amount := parseFloat (txAmount f) in
  let type := txType f in
  let date := txDate f in
  let v := validateInputs description amount date in
  if negb (fst v) then
    {| page_store := s; is_invalid := snd v; shake := true |}
  else
    {| page_store :=
         {| transactions :=
              transactions s ++
              [{| id := nextId s; description := description;
                  amount := amount; type := type; date := date |}];
            nextId := js_increment (nextId s) |};
       is_invalid := [];
       shake := false |}.

(** [handleDelete()]; [idToRemove] is the [data-id] of the clicked
    button.  The handler returns nothing. *)
Definition handleDelete (idToRemove : Z) (s : store) : jsvalue * store :=
  (undefined,
   {| transactions :=
        filter (fun tx => negb (id tx =? idToRemove)) (transactions s);
      nextId := nextId s |}).

End Part000.

(** ** Notions the properties are stated with *)

(** The sum of a list of numbers, added left to right from [0]. *)
Definition sum (l : list number) : number := fold_left js_add l zero.

Section AggregationDefs.

(** The single pass of [updateSummary], over the record type of either
    revision. *)
Variable T : Type.
Variable typeOf : T -> jsstring.
Variable amountOf : T -> number.

Definition isIncome (tx : T) : bool := jsstring_eqb (typeOf tx) (js "income").
Definition isExpense (tx : T) : bool := jsstring_eqb (typeOf tx) (js "expense").

Definition pass (acc : number * number) (tx : T) : number * number :=
  if isIncome tx
  then (js_add (fst acc) (amountOf tx), snd acc)
  else (fst acc, js_add (snd acc) (amountOf tx)).

(** Every record carries one of the two types of the data model. *)
Definition typed (l : list T) : Prop :=
  Forall (fun tx => typeOf tx = js "income" \/ typeOf tx = js "expense") l.

End AggregationDefs.

Arguments isIncome {T} typeOf tx.
Arguments isExpense {T} typeOf tx.
Arguments pass {T} typeOf amountOf acc tx.
Arguments typed {T} typeOf l.

(** [income], [expense] and [balance] are the aggregate of [l]: the two
    sums by type and their difference. *)
Definition summarizes {T : Type} (typeOf : T -> jsstring)
  (amountOf : T -> number) (l : list T) (t : number * number * number)
  : Prop :=
  let '(income, expense, balance) := t in
  income = sum (map amountOf (filter (isIncome typeOf) l)) /\
  expense = sum (map amountOf (filter (isExpense typeOf) l)) /\
  balance = js_sub income expense.

(** The contribution of one record to an aggregate: its amount goes to
    income or to expense by its type, and the balance follows. *)
Definition addContribution (ty : jsstring) (amt : number)
  (t : number * number * number) : number * number * number :=
  let '(income, expense, _) := t in
  let income' :=
    if jsstring_eqb ty (js "income") then js_add income amt else income in
  let expense' :=
    if jsstring_eqb ty (js "income") then expense else js_add expense amt in
  (income', expense', js_sub income' expense').

(** The aggregate triple of a summary, for each revision. *)
Definition scriptTotals (s : Script.summary) : number * number * number :=
  (Script.totalIncome s, Script.totalExpense s, Script.netBalance s).

Definition part000Totals (s : Part000.summary) : number * number * number :=
  (Part000.income s, Part000.expense s, Part000.balance s).

(** ** Counting ids *)

(** The ids [l] of a store and its counter [c] after [n] adds: the ids
    are in increasing order and at most [n], and the counter stands at
    [n + 1], or at [limit] once that is reached. *)
Definition counted (l : list Z) (c n : Z) : Prop :=
  StronglySorted Z.lt l /\
  (forall i, In i l -> i <= n) /\
  c = Z.min (n + 1) limit /\
  0 <= n.

(** [k * 2^n], and the binary64 form of an integer [k] below 2^53. *)
Definition sh (k : positive) (n : nat) : positive := Nat.iter n xO k.

Definition canon (k : positive) : number :=
  let w := (53 - Pos.to_nat (digits2_pos k))%nat in
  S754_finite false (sh k w) (- Z.of_nat w).

(** ** Readings of the removal and submission contracts *)

(** [remove(id)] returns a boolean telling whether a record was
    removed. *)
Definition returnsWhetherRemoved (i : Z) (s : Script.store) : Prop :=
  fst (Script.removeTransaction i s) =
  boolean (existsb (fun tx => Script.id tx =? i) (Script.transactions s)).

(** The verdict of the validator on a submitted form, in each revision. *)
Definition accepts (f : Script.form) : bool :=
  fst (Script.validateInputs (Script.readFormValues f)).

Definition accepts0 (f : Part000.form) : bool :=
  fst (Part000.validateInputs (trim (Part000.txDescription f))
         (parseFloat (Part000.txAmount f)) (Part000.txDate f)).

(** ** Sample data *)

Definition now0 : jsstring := js "2026-01-01T09:00:00.000Z".

Definition salaryData : Script.formData :=
  {| Script.data_description := js "Salary";
     Script.data_amount := js "1000";
     Script.data_type := js "income";
     Script.data_date := js "2026-01-01" |}.

Definition rentData : Script.formData :=
  {| Script.data_description := js "Rent";
     Script.data_amount := js "300";
     Script.data_type := js "expense";
     Script.data_date := js "2026-01-02" |}.

(** A store holding the ids 1 and 2. *)
Definition twoAdds : list Script.op :=
  [Script.Add now0 salaryData; Script.Add now0 rentData].


(** A record added and removed again, [n] times over. *)
Definition churn (n : nat) : list Script.op :=
  flat_map (fun k => [Script.Add now0 salaryData; Script.Remove (Z.of_nat k)])
           (seq 1 n).

(** A record added and removed again 2^53 - 1 times, then one more record
    added. *)
Definition overflow : list Script.op :=
  churn (Z.to_nat (limit - 1)) ++ [Script.Add now0 salaryData].

(** A form with every field blank. *)
Definition blankForm : Script.form :=
  {| Script.txDescription := js "   "; Script.txAmount := [];
     Script.txType := js "income"; Script.txDate := [] |}.

Definition blankForm0 : Part000.form :=
  {| Part000.txDescription := js "   "; Part000.txAmount := [];
     Part000.txType := js "income"; Part000.txDate := [] |}.

(** A description of 101 letters, and forms around it. *)
Definition longDescription : jsstring := repeat 97%N 101.

Definition longForm : Script.form :=
  {| Script.txDescription := longDescription; Script.txAmount := js "5";
     Script.txType := js "expense"; Script.txDate := js "2026-01-01" |}.

Definition longForm0 : Part000.form :=
  {| Part000.txDescription := longDescription; Part000.txAmount := js "5";
     Part000.txType := js "expense"; Part000.txDate := js "2026-01-01" |}.

(** A record of 1234.5. *)
Definition bonus0 : Part000.transaction :=
  {| Part000.id := 1; Part000.description := js "Bonus";
     Part000.amount := parseFloat (js "1234.5"); Part000.type := js "income";
     Part000.date := js "2026-01-01" |}.

Definition bonus : Script.transaction :=
  {| Script.id := 1; Script.description := js "Bonus";
     Script.amount := parseFloat (js "1234.5"); Script.type := js "income";
     Script.date := js "2026-01-01"; Script.createdAt := now0 |}.




Definition salary : Script.transaction :=
  {| Script.id := 1; Script.description := js "Salary";
     Script.amount := of_Z 1000; Script.type := js "income";
     Script.date := js "2026-01-01";
     Script.createdAt := js "2026-01-01T09:00:00.000Z" |}.

Definition rent : Script.transaction :=
  {| Script.id := 2; Script.description := js "Rent";
     Script.amount := of_Z 300; Script.type := js "expense";
     Script.date := js "2026-01-02";
     Script.createdAt := js "2026-01-02T09:00:00.000Z" |}.

Definition salary0 : Part000.transaction :=
  {| Part000.id := 1; Part000.description := js "Salary";
     Part000.amount := of_Z 1000; Part000.type := js "income";
     Part000.date := js "2026-01-01" |}.

Definition rent0 : Part000.transaction :=
  {| Part000.id := 2; Part000.description := js "Rent";
     Part000.amount := of_Z 300; Part000.type := js "expense";
     Part000.date := js "2026-01-02" |}.

(** ** The page, event by event *)

(** The user's two actions on the page of [script.js]: submitting the
    form and clicking the delete button of a row. *)
Inductive event :=
| Submit (now : jsstring) (f : Script.form)
| Delete (idToRemove : Z).

(** The store once the handler of an event has run. *)
Definition handle (s : Script.store) (e : event) : Script.store :=
  match e with
  | Submit now f => Script.page_store (Script.handleFormSubmit now f s)
  | Delete i => Script.page_store (Script.handleDelete i s)
  end.

(** The store after a session of events on a freshly loaded page. *)
Definition session (es : list event) : Script.store :=
  fold_left handle es Script.init.

(** The same for the revision [part_000]. *)
Inductive event0 :=
| Submit0 (f : Part000.form)
| Delete0 (idToRemove : Z).

Definition handle0 (s : Part000.store) (e : event0) : Part000.store :=
  match e with
  | Submit0 f => Part000.page_store (Part000.handleFormSubmit f s)
  | Delete0 i => snd (Part000.handleDelete i s)
  end.

Definition session0 (es : list event0) : Part000.store :=
  fold_left handle0 es Part000.init.

(** The ['input'] listeners that [bindEvents] of [script.js] puts on the
    description and amount fields: whether, at the field's value, the
    listener takes [.is-invalid] off the field. *)
Definition descriptionInputClears (val : jsstring) : bool :=
  jslength (trim val) >? 0.

Definition amountInputClears (val : jsstring) : bool :=
  let v := parseFloat val in
  negb (isNaN v) && js_lt zero v.

(** ** Notions for the further properties *)

(** A record as the form of [script.js] lets it through. *)
Definition validated (tx : Script.transaction) : Prop :=
  Script.description tx <> [] /\
  jslength (Script.description tx) <= Script.maxDescLen /\
  trim (Script.description tx) = Script.description tx /\
  isNaN (Script.amount tx) = false /\
  js_lt zero (Script.amount tx) = true /\
  Script.date tx <> [].

(** A record as the form of [part_000] lets it through. *)
Definition validated0 (tx : Part000.transaction) : Prop :=
  Part000.description tx <> [] /\
  trim (Part000.description tx) = Part000.description tx /\
  isNaN (Part000.amount tx) = false /\
  js_lt zero (Part000.amount tx) = true /\
  Part000.date tx <> [].

(** Neither NaN nor a value with the sign bit set. *)
Definition nonnegative (x : number) : bool :=
  negb (isNaN x) && negb (signOf x).

(** The ids of the store of [part_000]. *)
Definition ids0 (s : Part000.store) : list Z :=
  map Part000.id (Part000.transactions s).

(** The number of adds in a history of the store. *)
Definition adds (ops : list Script.op) : nat :=
  List.length
    (filter (fun o => match o with Script.Add _ _ => true | _ => false end)
            ops).

(** The form of [script.js] as the same field values in [part_000]. *)
Definition asForm0 (f : Script.form) : Part000.form :=
  {| Part000.txDescription := Script.txDescription f;
     Part000.txAmount := Script.txAmount f;
     Part000.txType := Script.txType f;
     Part000.txDate := Script.txDate f |}.


(** Two submits whose amounts overflow the number range. *)
Definition hugeIncome : Script.form :=
  {| Script.txDescription := js "Windfall"; Script.txAmount := js "1e999";
     Script.txType := js "income"; Script.txDate := js "2026-01-04" |}.

Definition hugeExpense : Script.form :=
  {| Script.txDescription := js "Yacht"; Script.txAmount := js "1e999";
     Script.txType := js "expense"; Script.txDate := js "2026-01-05" |}.

Definition hugeSession : list event :=
  [Submit now0 hugeIncome; Submit now0 hugeExpense].

(** A form that passes validation. *)
Definition lunchForm : Script.form :=
  {| Script.txDescription := js "  Lunch "; Script.txAmount := js "12.50";
     Script.txType := js "expense"; Script.txDate := js "2026-01-03" |}.

(** A short session on each page: two submits, then the first record
    deleted. *)
Definition sampleSession : list event :=
  [Submit now0 lunchForm; Submit now0 lunchForm; Delete 1].

Definition sampleSession0 : list event0 :=
  [Submit0 (asForm0 lunchForm); Submit0 (asForm0 lunchForm); Delete0 1].

(** * Properties *)

(** ** Strings *)

Lemma jsstring_eqb_eq (a b : jsstring) : jsstring_eqb a b = true <-> a = b.
Proof.
  unfold jsstring_eqb. destruct (list_eq_dec N.eq_dec a b); split; congruence.
Qed.

Lemma jsstring_eqb_refl (a : jsstring) : jsstring_eqb a a = true.
Proof. now apply jsstring_eqb_eq. Qed.

Lemma falsy_nil (s : jsstring) : falsy s = true <-> s = [].
Proof. destruct s; simpl; split; congruence. Qed.

(** ** Counting in binary64 *)

Lemma sh_add (k : positive) (a b : nat) : sh (sh k a) b = sh k (a + b).
Proof.
  unfold sh. rewrite Nat.add_comm. symmetry. apply Nat.iter_add.
Qed.

Lemma sh_digits (k : positive) (n : nat) :
  Zpos (digits2_pos (sh k n)) = Zpos (digits2_pos k) + Z.of_nat n.
Proof.
  induction n as [|n IH].
  - simpl. lia.
  - change (sh k (S n)) with (xO (sh k n)). cbn [digits2_pos].
    rewrite Pos2Z.inj_succ, IH. lia.
Qed.

Lemma sh_value (k : positive) (n : nat) :
  Zpos (sh k n) = Zpos k * 2 ^ Z.of_nat n.
Proof.
  induction n as [|n IH].
  - simpl. lia.
  - change (sh k (S n)) with (xO (sh k n)).
    rewrite Pos2Z.inj_xO, IH, Nat2Z.inj_succ, Z.pow_succ_r by lia. lia.
Qed.

Lemma sh_plus (a b : positive) (n : nat) :
  (sh a n + sh b n)%positive = sh (a + b) n.
Proof.
  apply Pos2Z.inj. rewrite Pos2Z.inj_add, !sh_value, Pos2Z.inj_add. lia.
Qed.

Lemma pos_iter_sh (k : positive) (d : positive) :
  Pos.iter xO k d = sh k (Pos.to_nat d).
Proof.
  unfold sh. rewrite Pos2Nat.inj_iter. reflexivity.
Qed.

Lemma iter_pos_nat (A : Type) (f : A -> A) (p : positive) (x : A) :
  iter_pos f p x = Nat.iter (Pos.to_nat p) f x.
Proof.
  assert (E : forall q y, iter_pos f q y = Pos.iter f y q).
  { induction q as [q IH|q IH|]; intros y; simpl.
    - rewrite !IH. now rewrite <- !Pos.iter_swap.
    - now rewrite !IH.
    - reflexivity. }
  rewrite E, Pos2Nat.inj_iter. reflexivity.
Qed.

Lemma shr_zeros (k : positive) (n r : nat) :
  Nat.iter n shr_1 (Build_shr_record (Zpos (sh k (n + r))) false false) =
  Build_shr_record (Zpos (sh k r)) false false.
Proof.
  revert r. induction n as [|n IH]; intros r; [reflexivity|].
  cbn [Nat.iter nat_rect]. 
  replace (S n + r)%nat with (n + S r)%nat by lia.
  change (Nat.iter n shr_1 ?x) with (Nat.iter n shr_1 x).
  specialize (IH (S r)). unfold Nat.iter in IH. rewrite IH. reflexivity.
Qed.

Lemma fexp_small (d : Z) : 1 <= d <= 54 -> fexp prec emax d = d - 53.
Proof. intros H. unfold fexp, SpecFloat.emin, prec, emax. lia. Qed.

Lemma round_aux_canon (k : positive) (j w : nat) :
  Zpos (digits2_pos k) + Z.of_nat w = 53 -> (w <= j)%nat ->
  binary_round_aux prec emax false (Zpos (sh k j)) (- Z.of_nat j) loc_Exact =
  S754_finite false (sh k w) (- Z.of_nat w).
Proof.
  intros Hd Hj. unfold binary_round_aux.
  assert (E1 : shr_fexp prec emax (Zpos (sh k j)) (- Z.of_nat j) loc_Exact =
               (Build_shr_record (Zpos (sh k w)) false false, - Z.of_nat w)).
  { unfold shr_fexp. cbn [Zdigits2 shr_record_of_loc].
    rewrite sh_digits.
    replace (Zpos (digits2_pos k) + Z.of_nat j + - Z.of_nat j)
      with (Zpos (digits2_pos k)) by lia.
    rewrite fexp_small by lia.
    unfold shr.
    destruct (Zpos (digits2_pos k) - 53 - - Z.of_nat j) as [|p|p] eqn:E.
    - assert (j = w) by lia. subst j. reflexivity.
    - rewrite iter_pos_nat.
      assert (Hp : (j = Pos.to_nat p + w)%nat) by lia.
      rewrite Hp at 1. rewrite shr_zeros. f_equal. lia.
    - lia. }
  rewrite E1. cbn [shr_m loc_of_shr_record round_nearest_even].
  assert (E2 : shr_fexp prec emax (Zpos (sh k w)) (- Z.of_nat w) loc_Exact =
               (Build_shr_record (Zpos (sh k w)) false false, - Z.of_nat w)).
  { unfold shr_fexp. cbn [Zdigits2 shr_record_of_loc].
    rewrite sh_digits.
    replace (Zpos (digits2_pos k) + Z.of_nat w + - Z.of_nat w)
      with (Zpos (digits2_pos k)) by lia.
    rewrite fexp_small by lia.
    replace (Zpos (digits2_pos k) - 53 - - Z.of_nat w) with 0 by lia.
    reflexivity. }
  rewrite E2. cbn [shr_m].
  destruct (Z.leb_spec (- Z.of_nat w) (emax - prec)) as [_ | H];
    [reflexivity | unfold emax, prec in H; lia].
Qed.

Lemma round_canon (k : positive) (j : nat) :
  Zpos (digits2_pos k) <= 53 ->
  binary_round prec emax false (sh k j) (- Z.of_nat j) = canon k.
Proof.
  intros Hd. unfold binary_round, canon.
  set (w := (53 - Pos.to_nat (digits2_pos k))%nat).
  assert (Hw : Zpos (digits2_pos k) + Z.of_nat w = 53) by (unfold w; lia).
  rewrite sh_digits.
  replace (Zpos (digits2_pos k) + Z.of_nat j + - Z.of_nat j)
    with (Zpos (digits2_pos k)) by lia.
  rewrite fexp_small by lia. unfold shl_align.
  destruct (Zpos (digits2_pos k) - 53 - - Z.of_nat j) as [|p|p] eqn:E.
  - apply round_aux_canon; [exact Hw | lia].
  - apply round_aux_canon; [exact Hw | lia].
  - rewrite pos_iter_sh, sh_add.
    replace (Zpos (digits2_pos k) - 53) with (- Z.of_nat w) by lia.
    replace (j + Pos.to_nat p)%nat with w by lia.
    apply round_aux_canon; [exact Hw | lia].
Qed.

Lemma digits_bound (k : positive) :
  Zpos k < 2 ^ 53 -> 1 <= Zpos (digits2_pos k) <= 53.
Proof.
  intros H. split; [lia|].
  assert (E : forall q, digits2_pos q = Pos.size q).
  { induction q as [q IH|q IH|]; simpl; rewrite ?IH; reflexivity. }
  rewrite E. pose proof (Pos.size_le k) as L.
  assert (L' : 2 ^ Zpos (Pos.size k) <= 2 * Zpos k).
  { rewrite <- Pos2Z.inj_pow. change (2 * Zpos k) with (Zpos k~0).
    apply Pos2Z.pos_le_pos. exact L. }
  destruct (Z.le_gt_cases (Zpos (Pos.size k)) 53) as [G | G]; [exact G|].
  exfalso.
  assert (P : 2 ^ 54 <= 2 ^ Zpos (Pos.size k))
    by (apply Z.pow_le_mono_r; lia).
  change (2 ^ 54) with (2 * 2 ^ 53) in P. lia.
Qed.

Lemma of_Z_canon (k : positive) : Zpos k < 2 ^ 53 -> of_Z (Zpos k) = canon k.
Proof.
  intros H. unfold of_Z, binary_normalize.
  apply (round_canon k 0). now apply digits_bound.
Qed.

Lemma to_Z_canon (k : positive) : Zpos k < 2 ^ 53 -> to_Z (canon k) = Zpos k.
Proof.
  intros H. apply digits_bound in H. unfold canon.
  set (w := (53 - Pos.to_nat (digits2_pos k))%nat). unfold to_Z.
  destruct w as [|w'] eqn:E.
  - simpl. lia.
  - cbn [Z.of_nat Z.opp cond_Zopp]. rewrite sh_value.
    change (Zpos (Pos.of_succ_nat w')) with (Z.of_nat (S w')).
    apply Z.div_mul. apply Z.pow_nonzero; lia.
Qed.

Lemma add_one_canon (n : positive) :
  Zpos n + 1 < 2 ^ 53 ->
  js_add (canon n) (canon 1) = canon (n + 1).
Proof.
  intros H.
  assert (Hn : Zpos n < 2 ^ 53) by lia.
  pose proof (digits_bound n Hn) as Dn.
  assert (C1 : canon 1 = S754_finite false (sh 1 52) (- Z.of_nat 52))
    by reflexivity.
  rewrite C1. unfold canon at 1.
  set (w := (53 - Pos.to_nat (digits2_pos n))%nat).
  assert (Hw : Zpos (digits2_pos n) + Z.of_nat w = 53) by (unfold w; lia).
  unfold js_add, SFadd. cbv zeta.
  replace (Z.min (- Z.of_nat w) (- Z.of_nat 52)) with (- Z.of_nat 52) by lia.
  assert (A : fst (shl_align (sh n w) (- Z.of_nat w) (- Z.of_nat 52)) = sh n 52).
  { unfold shl_align.
    destruct (- Z.of_nat 52 - - Z.of_nat w) as [|p|p] eqn:E.
    - assert (W : w = 52%nat) by lia. rewrite W. reflexivity.
    - lia.
    - cbn [fst]. rewrite pos_iter_sh, sh_add.
      assert (W : (w + Pos.to_nat p = 52)%nat) by lia. rewrite W. reflexivity. }
  assert (B : fst (shl_align (sh 1 52) (- Z.of_nat 52) (- Z.of_nat 52)) = sh 1 52).
  { unfold shl_align. rewrite Z.sub_diag. reflexivity. }
  rewrite A, B. cbn [cond_Zopp]. rewrite <- Pos2Z.inj_add, sh_plus.
  unfold binary_normalize.
  apply round_canon. apply digits_bound. lia.
Qed.

Lemma js_increment_exact (n : Z) :
  1 <= n -> n + 1 < 2 ^ 53 -> js_increment n = n + 1.
Proof.
  intros H1 H2. destruct n as [|p|p]; try lia.
  unfold js_increment.
  rewrite (of_Z_canon p) by lia.
  change (of_Z 1) with (canon 1).
  rewrite add_one_canon by lia.
  rewrite to_Z_canon by lia. lia.
Qed.

Lemma js_increment_last : js_increment (2 ^ 53 - 1) = 2 ^ 53.
Proof. vm_compute. reflexivity. Qed.

Lemma js_increment_stuck : js_increment (2 ^ 53) = 2 ^ 53.
Proof. vm_compute. reflexivity. Qed.

Lemma js_increment_min (n : Z) :
  1 <= n <= 2 ^ 53 -> js_increment n = Z.min (n + 1) (2 ^ 53).
Proof.
  intros H.
  destruct (Z.lt_ge_cases (n + 1) (2 ^ 53)) as [L | G].
  - rewrite js_increment_exact by lia. lia.
  - assert (E : n = 2 ^ 53 - 1 \/ n = 2 ^ 53) by lia.
    destruct E as [-> | ->].
    + rewrite js_increment_last. reflexivity.
    + rewrite js_increment_stuck. reflexivity.
Qed.

(** ** The single-pass aggregation *)

Section Aggregation.

Variable T : Type.
Variable typeOf : T -> jsstring.
Variable amountOf : T -> number.

Lemma pass_fold (l : list T) (a b : number) :
  fold_left (pass typeOf amountOf) l (a, b) =
  (fold_left js_add (map amountOf (filter (isIncome typeOf) l)) a,
   fold_left js_add
     (map amountOf (filter (fun tx => negb (isIncome typeOf tx)) l)) b).
Proof.
  revert a b. induction l as [|tx l IH]; intros a b; simpl.
  - reflexivity.
  - unfold pass at 2. destruct (isIncome typeOf tx); simpl; apply IH.
Qed.

Lemma typed_filter_expense (l : list T) :
  typed typeOf l ->
  filter (fun tx => negb (isIncome typeOf tx)) l = filter (isExpense typeOf) l.
Proof.
  induction 1 as [|tx l Htx _ IH]; simpl.
  - reflexivity.
  - unfold isIncome at 1, isExpense at 1.
    destruct Htx as [-> | ->]; simpl; now rewrite IH.
Qed.

End Aggregation.

Lemma Script_updateSummary_fold (txs : list Script.transaction) :
  scriptTotals (Script.updateSummary txs) =
  let acc := fold_left (pass Script.type Script.amount) txs (zero, zero) in
  (fst acc, snd acc, js_sub (fst acc) (snd acc)).
Proof.
  unfold scriptTotals, Script.updateSummary.
  change Script.accumulate with (pass Script.type Script.amount).
  now destruct (fold_left _ txs (zero, zero)).
Qed.

Lemma Part000_updateSummary_fold (txs : list Part000.transaction) :
  part000Totals (Part000.updateSummary txs) =
  let acc := fold_left (pass Part000.type Part000.amount) txs (zero, zero) in
  (fst acc, snd acc, js_sub (fst acc) (snd acc)).
Proof.
  unfold part000Totals, Part000.updateSummary.
  change Part000.accumulate with (pass Part000.type Part000.amount).
  now destruct (fold_left _ txs (zero, zero)).
Qed.

Lemma fold_summarizes (T : Type) (typeOf : T -> jsstring)
  (amountOf : T -> number) (l : list T) :
  typed typeOf l ->
  let acc := fold_left (pass typeOf amountOf) l (zero, zero) in
  summarizes typeOf amountOf l (fst acc, snd acc, js_sub (fst acc) (snd acc)).
Proof.
  intros Hl. cbv zeta. rewrite pass_fold. simpl.
  rewrite (typed_filter_expense _ typeOf l Hl). repeat split.
Qed.

(** Whatever the types, [updateSummary] of [script.js] counts as expense
    every record whose type is not ['income']. *)
Lemma Script_updateSummary_expense (txs : list Script.transaction) :
  Script.totalExpense (Script.updateSummary txs) =
  sum (map Script.amount
         (filter (fun tx => negb (isIncome Script.type tx)) txs)).
Proof.
  pose proof (Script_updateSummary_fold txs) as H. cbv zeta in H.
  rewrite pass_fold in H. unfold scriptTotals in H. simpl in H.
  now inversion H.
Qed.

(** ** C1 *)

(** C1.  For every list of transactions (each of type income or expense,
    as the data model has them), [updateSummary] computes in one pass an
    income equal to the sum of the amounts of the income records, an
    expense equal to the sum of the amounts of the expense records, and a
    balance equal to income minus expense; on the empty list all three are
    0.  This holds in both revisions of the script. *)
Theorem C1_updateSummary_totals
  (txs : list Script.transaction) (txs0 : list Part000.transaction) :
  typed Script.type txs ->
  typed Part000.type txs0 ->
  summarizes Script.type Script.amount txs
    (scriptTotals (Script.updateSummary txs)) /\
  summarizes Part000.type Part000.amount txs0
    (part000Totals (Part000.updateSummary txs0)) /\
  scriptTotals (Script.updateSummary []) = (zero, zero, zero) /\
  part000Totals (Part000.updateSummary []) = (zero, zero, zero).
Proof.
  intros H H0. split; [|split; [|split]].
  - rewrite Script_updateSummary_fold. now apply fold_summarizes.
  - rewrite Part000_updateSummary_fold. now apply fold_summarizes.
  - reflexivity.
  - reflexivity.
Qed.

Lemma C1_updateSummary_totals_witness :
  typed Script.type [salary; rent] /\
  typed Part000.type [salary0; rent0] /\
  scriptTotals (Script.updateSummary [salary; rent]) =
    (of_Z 1000, of_Z 300, of_Z 700) /\
  summarizes Script.type Script.amount [salary; rent]
    (scriptTotals (Script.updateSummary [salary; rent])) /\
  summarizes Part000.type Part000.amount [salary0; rent0]
    (part000Totals (Part000.updateSummary [salary0; rent0])).
Proof.
  assert (H : typed Script.type [salary; rent]).
  { constructor; [left; reflexivity|].
    constructor; [right; reflexivity|]. constructor. }
  assert (H0 : typed Part000.type [salary0; rent0]).
  { constructor; [left; reflexivity|].
    constructor; [right; reflexivity|]. constructor. }
  split; [exact H|]. split; [exact H0|]. split; [vm_compute; reflexivity|].
  destruct (C1_updateSummary_totals [salary; rent] [salary0; rent0] H H0)
    as (A & B & _).
  split; [exact A | exact B].
Defined.

(** ** C8 *)

Lemma addContribution_pass (T : Type) (typeOf : T -> jsstring)
  (amountOf : T -> number) (x : T) (acc : number * number) (b : number) :
  let acc' := pass typeOf amountOf acc x in
  (fst acc', snd acc', js_sub (fst acc') (snd acc')) =
  addContribution (typeOf x) (amountOf x) (fst acc, snd acc, b).
Proof.
  unfold pass, isIncome, addContribution.
  now destruct (jsstring_eqb (typeOf x) (js "income")).
Qed.

(** C8.  Summarising is additive: the summary of a ledger with one more
    record [x] pushed onto it is the summary of the ledger combined with the
    contribution of [x], whose amount is added to income when the type of
    [x] is income and to expense otherwise, the other total being
    unchanged and the balance being the new income minus the new expense.
    This holds in both revisions of the script. *)
Theorem C8_updateSummary_additive
  (A : list Script.transaction) (x : Script.transaction)
  (A0 : list Part000.transaction) (x0 : Part000.transaction) :
  scriptTotals (Script.updateSummary (A ++ [x])) =
    addContribution (Script.type x) (Script.amount x)
      (scriptTotals (Script.updateSummary A)) /\
  part000Totals (Part000.updateSummary (A0 ++ [x0])) =
    addContribution (Part000.type x0) (Part000.amount x0)
      (part000Totals (Part000.updateSummary A0)).
Proof.
  split.
  - rewrite !Script_updateSummary_fold. cbv zeta.
    rewrite fold_left_app. simpl fold_left. apply addContribution_pass.
  - rewrite !Part000_updateSummary_fold. cbv zeta.
    rewrite fold_left_app. simpl fold_left. apply addContribution_pass.
Qed.

(** ** The store: ids *)

Import Script.

Lemma js_increment_limit (n : Z) :
  1 <= n <= limit -> js_increment n = Z.min (n + 1) limit.
Proof. unfold limit. apply js_increment_min. Qed.

Lemma ids_add (now : jsstring) (data : formData) (s : store) :
  ids (snd (addTransaction now data s)) = ids s ++ [_nextId s].
Proof. unfold ids. simpl. now rewrite map_app. Qed.

Lemma ids_remove (i : Z) (s : store) :
  ids (snd (removeTransaction i s)) = filter (fun j => negb (j =? i)) (ids s).
Proof.
  unfold ids. simpl. induction (transactions s) as [|tx l IH]; simpl.
  - reflexivity.
  - destruct (id tx =? i); simpl; now rewrite IH.
Qed.

Lemma nextId_add (now : jsstring) (data : formData) (s : store) :
  _nextId (snd (addTransaction now data s)) = js_increment (_nextId s).
Proof. reflexivity. Qed.


Lemma run_one_add (now : jsstring) (data : formData) (s : store) :
  run s [Add now data] = snd (addTransaction now data s).
Proof. reflexivity. Qed.

Lemma nextId_remove (i : Z) (s : store) :
  _nextId (snd (removeTransaction i s)) = _nextId s.
Proof. reflexivity. Qed.

Lemma run_app (l1 l2 : list op) (s : store) :
  run s (l1 ++ l2) = run (run s l1) l2.
Proof. unfold run. apply fold_left_app. Qed.

Lemma adds_app (l1 l2 : list op) : adds (l1 ++ l2) = (adds l1 + adds l2)%nat.
Proof. unfold adds. now rewrite filter_app, length_app. Qed.

(** *** Ordered lists of ids *)

Lemma sorted_NoDup (l : list Z) : StronglySorted Z.lt l -> NoDup l.
Proof.
  induction 1 as [|a l _ IH Ha]; constructor; trivial.
  intros Hin. rewrite Forall_forall in Ha. apply Ha in Hin. lia.
Qed.

Lemma sorted_snoc (l : list Z) (n : Z) :
  StronglySorted Z.lt l -> (forall i, In i l -> i < n) ->
  StronglySorted Z.lt (l ++ [n]).
Proof.
  induction 1 as [|a l Hl IH Ha]; intros Hn; simpl.
  - repeat constructor.
  - constructor.
    + apply IH. intros i Hi. apply Hn. now right.
    + apply Forall_app. split; [exact Ha|].
      constructor; [|constructor]. apply Hn. now left.
Qed.

Lemma sorted_filter (f : Z -> bool) (l : list Z) :
  StronglySorted Z.lt l -> StronglySorted Z.lt (filter f l).
Proof.
  induction 1 as [|a l Hl IH Ha]; simpl; [constructor|].
  destruct (f a); [|exact IH]. constructor; [exact IH|].
  rewrite Forall_forall in *. intros x Hx. apply filter_In in Hx.
  apply Ha. tauto.
Qed.

Lemma sorted_rev (l : list Z) :
  StronglySorted Z.lt l -> StronglySorted Z.gt (rev l).
Proof.
  induction 1 as [|a l Hl IH Ha]; simpl; [constructor|].
  rewrite Forall_forall in Ha.
  assert (G : forall m, StronglySorted Z.gt m ->
                        (forall x, In x m -> x > a) ->
                        StronglySorted Z.gt (m ++ [a])).
  { induction 1 as [|b m Hm IHm Hb]; intros Hx; simpl.
    - repeat constructor.
    - constructor.
      + apply IHm. intros x Hin. apply Hx. now right.
      + apply Forall_app. split; [exact Hb|].
        constructor; [|constructor]. apply Hx. now left. }
  apply G; [exact IH|]. intros x Hx. apply in_rev in Hx.
  apply Ha in Hx. lia.
Qed.


(** *** The counter and the ids, add by add *)

Lemma counted_init : counted (ids init) (_nextId init) 0.
Proof.
  unfold counted. split; [constructor|]. split; [intros i []|].
  split; [vm_compute; reflexivity | lia].
Qed.

Lemma counted_add (l : list Z) (c n : Z) :
  counted l c n -> n < limit ->
  counted (l ++ [c]) (js_increment c) (n + 1) /\ c = n + 1.
Proof.
  intros (Hs & Hle & Hc & Hn) Hlt.
  assert (E : c = n + 1) by lia. split; [|exact E].
  repeat split.
  - apply sorted_snoc; [exact Hs|]. intros i Hi. apply Hle in Hi. lia.
  - intros i Hi. apply in_app_or in Hi. destruct Hi as [Hi | [<- | []]].
    + apply Hle in Hi. lia.
    + lia.
  - rewrite js_increment_limit by lia. rewrite E. reflexivity.
  - lia.
Qed.

Lemma counted_filter (f : Z -> bool) (l : list Z) (c n : Z) :
  counted l c n -> counted (filter f l) c n.
Proof.
  intros (Hs & Hle & Hc & Hn). repeat split; trivial.
  - now apply sorted_filter.
  - intros i Hi. apply filter_In in Hi. now apply Hle.
Qed.

Lemma run_counted (ops : list op) (s : store) (n : Z) :
  counted (ids s) (_nextId s) n ->
  n + Z.of_nat (adds ops) <= limit ->
  counted (ids (run s ops)) (_nextId (run s ops)) (n + Z.of_nat (adds ops)).
Proof.
  revert s n. induction ops as [|o ops IH]; intros s n H Hb.
  - simpl. now rewrite Z.add_0_r.
  - change (run s (o :: ops)) with (run (step s o) ops).
    destruct o as [now data|i].
    + change (adds (Add now data :: ops)) with (S (adds ops)) in *.
      rewrite Nat2Z.inj_succ in *.
      replace (n + Z.succ (Z.of_nat (adds ops)))
        with (n + 1 + Z.of_nat (adds ops)) by lia.
      apply IH; [|lia]. unfold step. rewrite ids_add, nextId_add.
      apply counted_add; [exact H | lia].
    + change (adds (Remove i :: ops)) with (adds ops) in *.
      apply IH; [|exact Hb]. unfold step. rewrite ids_remove, nextId_remove.
      now apply counted_filter.
Qed.

Lemma run_counter (ops : list op) (s : store) :
  1 <= _nextId s <= limit ->
  _nextId (run s ops) = Z.min (_nextId s + Z.of_nat (adds ops)) limit /\
  assigned s ops =
    map (fun k => Z.min (_nextId s + Z.of_nat k) limit) (seq 0 (adds ops)).
Proof.
  revert s. induction ops as [|o ops IH]; intros s Hs.
  - simpl. split; [lia | reflexivity].
  - change (run s (o :: ops)) with (run (step s o) ops).
    destruct o as [now data|i].
    + change (adds (Add now data :: ops)) with (S (adds ops)).
      change (assigned s (Add now data :: ops))
        with (_nextId s :: assigned (step s (Add now data)) ops).
      assert (E : _nextId (step s (Add now data)) =
                  Z.min (_nextId s + 1) limit)
        by (apply js_increment_limit; exact Hs).
      destruct (IH (step s (Add now data))) as [A B]; [rewrite E; lia|].
      rewrite A, B, E. split; [lia|].
      change (seq 0 (S (adds ops))) with (0%nat :: seq 1 (adds ops)).
      cbn [map]. f_equal; [lia|].
      rewrite <- seq_shift, map_map. apply map_ext. intros k. lia.
    + change (adds (Remove i :: ops)) with (adds ops).
      change (assigned s (Remove i :: ops))
        with (assigned (step s (Remove i)) ops).
      destruct (IH (step s (Remove i))) as [A B]; [exact Hs|].
      rewrite A, B. split; reflexivity.
Qed.

Lemma assigned_init (ops : list op) :
  _nextId (run init ops) = Z.min (1 + Z.of_nat (adds ops)) limit /\
  assigned init ops =
    map (fun k => Z.min (1 + Z.of_nat k) limit) (seq 0 (adds ops)).
Proof.
  apply (run_counter ops init). unfold limit. simpl. lia.
Qed.



Lemma absent_while_counting (ops : list op) (s : store) (n i : Z) :
  i <= n -> ~ In i (ids s) ->
  _nextId s = Z.min (n + 1) limit -> 0 <= n ->
  n + Z.of_nat (adds ops) <= limit ->
  ~ In i (ids (run s ops)).
Proof.
  revert s n. induction ops as [|o ops IH]; intros s n Hi Hni Hc Hn Hb;
    [exact Hni|].
  change (run s (o :: ops)) with (run (step s o) ops).
  destruct o as [now data|j].
  - change (adds (Add now data :: ops)) with (S (adds ops)) in Hb.
    rewrite Nat2Z.inj_succ in Hb.
    apply (IH _ (n + 1)); try lia.
    + unfold step. rewrite ids_add. intros H. apply in_app_or in H.
      destruct H as [H | [H | []]]; [tauto | lia].
    + unfold step. rewrite nextId_add, Hc.
      rewrite js_increment_limit by lia. lia.
  - change (adds (Remove j :: ops)) with (adds ops) in Hb.
    apply (IH _ n); trivial.
    unfold step. rewrite ids_remove. intros H. apply filter_In in H. tauto.
Qed.

Lemma remove_one (l : list transaction) (i : Z) :
  NoDup (map id l) -> In i (map id l) ->
  S (List.length (filter (fun tx => negb (id tx =? i)) l)) = List.length l.
Proof.
  induction l as [|tx l IH]; simpl; [intros _ []|].
  intros Hnd Hin. inversion Hnd as [|? ? Hni Hnd']; subst.
  destruct (Z.eqb_spec (id tx) i) as [E | E]; simpl.
  - f_equal. subst i. clear IH Hin Hnd Hnd'.
    induction l as [|ty l IHl]; simpl; [reflexivity|].
    destruct (Z.eqb_spec (id ty) (id tx)) as [E | E]; simpl.
    + exfalso. apply Hni. left. exact E.
    + f_equal. apply IHl. intros H. apply Hni. now right.
  - f_equal. apply IH; [exact Hnd'|]. destruct Hin; [contradiction | assumption].
Qed.

(** A record added and removed again, [n] times over, leaves the store
    empty with the counter at [n + 1]. *)
Lemma churn_run (n : nat) :
  Z.of_nat n < limit ->
  run init (churn n) = {| transactions := []; _nextId := Z.of_nat n + 1 |}.
Proof.
  induction n as [|n IH]; intros Hn; [reflexivity|].
  unfold churn. rewrite seq_S, flat_map_app. fold (churn n).
  rewrite run_app, IH by lia.
  cbn [flat_map app run fold_left step].
  unfold removeTransaction, addTransaction.
  cbn [snd fst transactions _nextId app filter id].
  replace (Z.of_nat (1 + n)) with (Z.of_nat n + 1) by lia.
  rewrite Z.eqb_refl. cbn [negb]. f_equal.
  rewrite js_increment_limit by lia. lia.
Qed.

(** The store after [overflow]: one record, with id 2^53, and the counter
    at 2^53. *)
Lemma overflow_store :
  ids (run init overflow) = [limit] /\
  _nextId (run init overflow) = limit.
Proof.
  unfold overflow.
  assert (HN : Z.of_nat (Z.to_nat (limit - 1)) = limit - 1)
    by (apply Z2Nat.id; unfold limit; lia).
  remember (Z.to_nat (limit - 1)) as N eqn:EN. clear EN.
  rewrite run_app, churn_run, run_one_add by lia.
  rewrite ids_add, nextId_add. cbn [ids transactions _nextId map app].
  replace (Z.of_nat N + 1) with limit by lia.
  split; [reflexivity|].
  rewrite js_increment_limit by (unfold limit; lia). lia.
Qed.


Lemma stalled_remove (ops : list op) :
  ids (run init ops) = [limit] ->
  _nextId (run init ops) = limit ->
  let s := run init ops in
  let s' := snd (removeTransaction limit s) in
  let t := run init (ops ++ [Add now0 rentData]) in
  In limit (ids s) /\
  ~ In limit (ids s') /\
  In limit (ids (run s' [Add now0 rentData])) /\
  In limit (ids t) /\
  List.length (transactions t) = 2%nat /\
  List.length (transactions (snd (removeTransaction limit t))) = 0%nat.
Proof.
  intros Hi Hc. cbv zeta. rewrite run_app.
  set (s := run init ops) in *. clearbody s. rewrite !run_one_add.
  assert (E : ids (snd (addTransaction now0 rentData s)) = [limit; limit])
    by (rewrite ids_add, Hi, Hc; reflexivity).
  assert (F : ids (snd (removeTransaction limit
                          (snd (addTransaction now0 rentData s)))) = []).
  { rewrite ids_remove, E. cbn [filter]. rewrite Z.eqb_refl. reflexivity. }
  split; [rewrite Hi; left; reflexivity|]. split.
  { rewrite ids_remove, Hi. cbn [filter]. rewrite Z.eqb_refl.
    intros []. }
  split.
  { rewrite ids_add, nextId_remove, Hc.
    apply in_or_app. right. left. reflexivity. }
  split; [rewrite E; left; reflexivity|].
  split.
  - apply (f_equal (@List.length Z)) in E. unfold ids in E.
    rewrite length_map in E. exact E.
  - apply (f_equal (@List.length Z)) in F. unfold ids in F.
    rewrite length_map in F. exact F.
Qed.

(** ** C2 *)




(** ** C7 *)

(** C7, as stated, fails.  Let a record be added and removed again
    2^53 - 1 times and one more record be added, with id 2^53.  Once that
    record is removed the id is absent, and the very next add, given the
    id 2^53 again by the stalled counter, brings it back.  And when a
    second record is added instead, the store holds two records with the
    id 2^53, and removing that id makes the list two records shorter. *)
Lemma C7_removed_id_returns :
  let s := run init overflow in
  let s' := snd (removeTransaction limit s) in
  let t := run init (overflow ++ [Add now0 rentData]) in
  In limit (ids s) /\
  ~ In limit (ids s') /\
  In limit (ids (run s' [Add now0 rentData])) /\
  In limit (ids t) /\
  List.length (transactions t) = 2%nat /\
  List.length (transactions (snd (removeTransaction limit t))) = 0%nat.
Proof.
  destruct overflow_store as [Hi Hc]. exact (stalled_remove overflow Hi Hc).
Qed.

(** C7, amended.  In every store reached from the empty one by a history
    with at most 2^53 adds, removing an id that is present makes the list
    exactly one record shorter, and whatever operations follow, as long as
    no more than 2^53 adds are made in all, that id is never again among
    the ids of the store. *)
Theorem C7_remove_existing (ops : list op) (i : Z) :
  let s := run init ops in
  let s' := snd (removeTransaction i s) in
  In i (ids s) ->
  Z.of_nat (adds ops) <= limit ->
  S (List.length (transactions s')) = List.length (transactions s) /\
  forall ops',
    Z.of_nat (adds ops) + Z.of_nat (adds ops') <= limit ->
    ~ In i (ids (run s' ops')).
Proof.
  cbv zeta. intros Hin Hb.
  pose proof (run_counted ops init 0 counted_init) as C.
  destruct C as (Hs & Hle & Hc & Hn); [lia|].
  rewrite Z.add_0_l in Hle, Hc.
  split.
  - simpl. apply remove_one; [now apply sorted_NoDup | exact Hin].
  - intros ops' Hb'.
    apply (absent_while_counting ops' _ (Z.of_nat (adds ops))).
    + apply Hle. exact Hin.
    + rewrite ids_remove. intros H. apply filter_In in H.
      destruct H as [_ H]. rewrite Z.eqb_refl in H. discriminate H.
    + rewrite nextId_remove. exact Hc.
    + lia.
    + exact Hb'.
Qed.

Lemma C7_remove_existing_witness :
  In 1 (ids (run init twoAdds)) /\
  Z.of_nat (adds twoAdds) <= limit /\
  S (List.length (transactions (snd (removeTransaction 1 (run init twoAdds)))))
  = List.length (transactions (run init twoAdds)) /\
  ~ In 1 (ids (run (snd (removeTransaction 1 (run init twoAdds)))
                   [Add now0 rentData])).
Proof.
  assert (H : In 1 (ids (run init twoAdds)))
    by (vm_compute; left; reflexivity).
  assert (Hb : Z.of_nat (adds twoAdds) <= limit)
    by (vm_compute; discriminate).
  destruct (C7_remove_existing twoAdds 1 H Hb) as [L A].
  split; [exact H|]. split; [exact Hb|]. split; [exact L|].
  apply A. vm_compute. discriminate.
Defined.

(** ** C4 *)

Lemma filter_absent (l : list transaction) (i : Z) :
  ~ In i (map id l) -> filter (fun tx => negb (id tx =? i)) l = l.
Proof.
  induction l as [|tx l IH]; simpl; [reflexivity|]. intros H.
  destruct (Z.eqb_spec (id tx) i) as [E | E]; simpl.
  - exfalso. apply H. now left.
  - f_equal. apply IH. intros Hi. apply H. now right.
Qed.

Lemma filter_absent0 (l : list Part000.transaction) (i : Z) :
  ~ In i (map Part000.id l) ->
  filter (fun tx => negb (Part000.id tx =? i)) l = l.
Proof.
  induction l as [|tx l IH]; simpl; [reflexivity|]. intros H.
  destruct (Z.eqb_spec (Part000.id tx) i) as [E | E]; simpl.
  - exfalso. apply H. now left.
  - f_equal. apply IH. intros Hi. apply H. now right.
Qed.

Lemma In_filter_id (l : list transaction) (i : Z) (tx : transaction) :
  In tx (filter (fun tx => negb (id tx =? i)) l) <-> In tx l /\ id tx <> i.
Proof.
  rewrite filter_In. destruct (Z.eqb_spec (id tx) i); simpl; intuition congruence.
Qed.

Lemma In_filter_id0 (l : list Part000.transaction) (i : Z)
  (tx : Part000.transaction) :
  In tx (filter (fun tx => negb (Part000.id tx =? i)) l) <->
  In tx l /\ Part000.id tx <> i.
Proof.
  rewrite filter_In.
  destruct (Z.eqb_spec (Part000.id tx) i); simpl; intuition congruence.
Qed.

(** C4, as stated, fails: on a store that holds id 1, removing id 1 does
    remove the record, but the call returns [undefined], not [true]. *)
Lemma C4_remove_returns_no_boolean :
  In 1 (ids (run init twoAdds)) /\
  ids (snd (removeTransaction 1 (run init twoAdds))) = [2] /\
  ~ returnsWhetherRemoved 1 (run init twoAdds).
Proof.
  split; [simpl; now left|]. split; [reflexivity|].
  unfold returnsWhetherRemoved. simpl. discriminate.
Qed.

(** C4, amended.  [removeTransaction(id)] (and the removal in
    [handleDelete] of the other revision) returns no value; it keeps, in
    order, exactly the records whose id differs from [id], so the id is
    absent afterwards, and it leaves the counter alone; when the id is not
    in the store the whole store, list and counter, is unchanged. *)
Theorem C4_remove_filters (i : Z) (s : store) (s0 : Part000.store) :
  let r := removeTransaction i s in
  let r0 := Part000.handleDelete i s0 in
  fst r = undefined /\
  transactions (snd r) =
    filter (fun tx => negb (id tx =? i)) (transactions s) /\
  (forall tx, In tx (transactions (snd r)) <->
              In tx (transactions s) /\ id tx <> i) /\
  _nextId (snd r) = _nextId s /\
  ~ In i (ids (snd r)) /\
  (~ In i (ids s) -> snd r = s) /\
  fst r0 = undefined /\
  (forall tx, In tx (Part000.transactions (snd r0)) <->
              In tx (Part000.transactions s0) /\ Part000.id tx <> i) /\
  (~ In i (map Part000.id (Part000.transactions s0)) -> snd r0 = s0).
Proof.
  cbv zeta.
  split; [reflexivity|]. split; [reflexivity|].
  split; [intros tx; apply In_filter_id|].
  split; [reflexivity|].
  split.
  { rewrite ids_remove. intros H. apply filter_In in H.
    destruct H as [_ H]. now rewrite Z.eqb_refl in H. }
  split.
  { intros H. destruct s as [l n]. simpl in *. f_equal.
    now apply filter_absent. }
  split; [reflexivity|].
  split; [intros tx; apply In_filter_id0|].
  intros H. destruct s0 as [l n]. simpl in *. f_equal.
  now apply filter_absent0.
Qed.

Lemma C4_remove_filters_witness :
  ~ In 7 (ids (run init twoAdds)) /\
  snd (removeTransaction 7 (run init twoAdds)) = run init twoAdds /\
  fst (removeTransaction 7 (run init twoAdds)) = undefined.
Proof.
  assert (H : ~ In 7 (ids (run init twoAdds))).
  { simpl. intros [H | [H | []]]; discriminate. }
  destruct (C4_remove_filters 7 (run init twoAdds) Part000.init)
    as (A & _ & _ & _ & _ & B & _).
  split; [exact H|]. split; [exact (B H) | exact A].
Defined.

(** ** Validation *)

Lemma jslength_lt_1 (s : jsstring) : (jslength s <? 1) = falsy s.
Proof.
  destruct s as [|c s]; [reflexivity|]. unfold jslength. simpl List.length.
  apply Z.ltb_ge. lia.
Qed.

Lemma parseFloat_empty : parseFloat [] = NaN.
Proof. reflexivity. Qed.

(** What [validateInputs] of [script.js] marks and answers, field by
    field. *)
Lemma Script_validateInputs_rules (data : formData) :
  let v := validateInputs data in
  let amt := parseFloat (data_amount data) in
  (marked SEL_description v = true <->
     data_description data = [] \/ maxDescLen < jslength (data_description data)) /\
  (marked SEL_amount v = true <-> isNaN amt = true \/ js_le amt zero = true) /\
  (marked SEL_date v = true <-> data_date data = []) /\
  (fst v = true <->
     marked SEL_description v = false /\ marked SEL_amount v = false /\
     marked SEL_date v = false).
Proof.
  cbv zeta. unfold validateInputs.
  rewrite jslength_lt_1, orb_diag.
  assert (Ha : (jsstring_eqb (data_amount data) [] ||
                isNaN (parseFloat (data_amount data)) ||
                js_le (parseFloat (data_amount data)) zero) =
               (isNaN (parseFloat (data_amount data)) ||
                js_le (parseFloat (data_amount data)) zero)).
  { destruct (jsstring_eqb (data_amount data) []) eqn:E; [|reflexivity].
    apply jsstring_eqb_eq in E. rewrite E. reflexivity. }
  rewrite Ha. clear Ha.
  rewrite <- (falsy_nil (data_description data)).
  rewrite <- (falsy_nil (data_date data)).
  rewrite <- (Z.gtb_lt (jslength (data_description data)) maxDescLen).
  rewrite <- !orb_true_iff.
  destruct (falsy (data_description data));
    destruct (jslength (data_description data) >? maxDescLen);
    destruct (isNaN (parseFloat (data_amount data)) ||
              js_le (parseFloat (data_amount data)) zero);
    destruct (falsy (data_date data));
    cbn; intuition congruence.
Qed.

(** The same for the other revision: no rule on the length. *)
Lemma Part000_validateInputs_rules
  (description : jsstring) (amount : number) (date : jsstring) :
  let v := Part000.validateInputs description amount date in
  (Part000.marked Part000.txDescription_input v = true <-> description = []) /\
  (Part000.marked Part000.txAmount_input v = true <->
     isNaN amount = true \/ js_le amount zero = true) /\
  (Part000.marked Part000.txDate_input v = true <-> date = []) /\
  (fst v = true <->
     Part000.marked Part000.txDescription_input v = false /\
     Part000.marked Part000.txAmount_input v = false /\
     Part000.marked Part000.txDate_input v = false).
Proof.
  cbv zeta. unfold Part000.validateInputs.
  rewrite <- (falsy_nil description), <- (falsy_nil date).
  rewrite <- orb_true_iff.
  destruct (falsy description);
    destruct (isNaN amount || js_le amount zero);
    destruct (falsy date);
    cbn; intuition congruence.
Qed.

(** The examples of the validation rules, on [script.js]: descriptions of
    0, 100 and 101 characters; the amounts "0", "-5" and "0.01"; an empty
    date. *)
Lemma Script_validateInputs_examples :
  let check d a t :=
    validateInputs (readFormValues
      {| txDescription := d; txAmount := a; txType := js "income";
         txDate := t |}) in
  marked SEL_description (check [] (js "1") (js "2026-01-01")) = true /\
  marked SEL_description (check (js "   ") (js "1") (js "2026-01-01")) = true /\
  marked SEL_description
    (check (repeat 97%N 100) (js "1") (js "2026-01-01")) = false /\
  marked SEL_description
    (check (repeat 97%N 101) (js "1") (js "2026-01-01")) = true /\
  marked SEL_amount (check (js "a") (js "0") (js "2026-01-01")) = true /\
  marked SEL_amount (check (js "a") (js "-5") (js "2026-01-01")) = true /\
  marked SEL_amount (check (js "a") (js "0.01") (js "2026-01-01")) = false /\
  marked SEL_date (check (js "a") (js "1") []) = true /\
  fst (check (repeat 97%N 100) (js "0.01") (js "2026-01-01")) = true.
Proof. vm_compute. repeat split. Qed.

(** ** C5 *)

(** C5.  When the validator rejects the submitted form, [handleFormSubmit]
    leaves the store, its list and its counter, exactly as it was, whatever
    the store; it reports the failed fields and a danger alert and rebuilds
    nothing.  This holds in both revisions of the script. *)
Theorem C5_invalid_submit_aborts
  (now : jsstring) (f : form) (s : store)
  (f0 : Part000.form) (s0 : Part000.store) :
  accepts f = false ->
  accepts0 f0 = false ->
  page_store (handleFormSubmit now f s) = s /\
  transactions (page_store (handleFormSubmit now f s)) = transactions s /\
  _nextId (page_store (handleFormSubmit now f s)) = _nextId s /\
  inlineAlert (handleFormSubmit now f s) = Some danger /\
  is_invalid (handleFormSubmit now f s) = snd (validateInputs (readFormValues f)) /\
  is_invalid (handleFormSubmit now f s) <> [] /\
  page_table (handleFormSubmit now f s) = None /\
  Part000.page_store (Part000.handleFormSubmit f0 s0) = s0 /\
  Part000.is_invalid (Part000.handleFormSubmit f0 s0) <> [].
Proof.
  unfold accepts, accepts0, handleFormSubmit, Part000.handleFormSubmit.
  intros H H0. rewrite H, H0. simpl.
  repeat (split; [reflexivity|]). split; [|split; [reflexivity|split; [reflexivity|]]].
  - intros E.
    destruct (Script_validateInputs_rules (readFormValues f)) as (_ & _ & _ & R).
    cbv zeta in R. unfold marked in R. rewrite E in R. simpl in R.
    destruct R as [_ R]. rewrite R in H; [discriminate | repeat split].
  - intros E.
    destruct (Part000_validateInputs_rules (trim (Part000.txDescription f0))
                (parseFloat (Part000.txAmount f0)) (Part000.txDate f0))
      as (_ & _ & _ & R).
    cbv zeta in R. unfold Part000.marked in R. rewrite E in R. simpl in R.
    destruct R as [_ R]. rewrite R in H0; [discriminate | repeat split].
Qed.

Lemma C5_invalid_submit_aborts_witness :
  accepts blankForm = false /\
  accepts0 blankForm0 = false /\
  page_store (handleFormSubmit now0 blankForm (run init twoAdds)) =
    run init twoAdds /\
  Part000.page_store (Part000.handleFormSubmit blankForm0 Part000.init) =
    Part000.init.
Proof.
  assert (H : accepts blankForm = false) by reflexivity.
  assert (H0 : accepts0 blankForm0 = false) by reflexivity.
  destruct (C5_invalid_submit_aborts now0 blankForm (run init twoAdds)
              blankForm0 Part000.init H H0) as (A & _ & _ & _ & _ & _ & _ & B & _).
  repeat split; assumption.
Defined.

(** The rules on the submitted form: [readFormValues] trims the
    description before [validateInputs] sees it. *)
Corollary Script_validation_of_form (f : form) :
  let v := validateInputs (readFormValues f) in
  let amt := parseFloat (txAmount f) in
  (marked SEL_description v = true <->
     trim (txDescription f) = [] \/ 100 < jslength (trim (txDescription f))) /\
  (marked SEL_amount v = true <-> isNaN amt = true \/ js_le amt zero = true) /\
  (marked SEL_date v = true <-> txDate f = []) /\
  (accepts f = true <->
     marked SEL_description v = false /\ marked SEL_amount v = false /\
     marked SEL_date v = false).
Proof. exact (Script_validateInputs_rules (readFormValues f)). Qed.

(** ** C6 *)

(** The serial numbers [k+1 .. k+n]. *)
Lemma serials_shift (k : Z) (n : nat) :
  map (fun j => k + Z.of_nat j) (seq 2 n) =
  map (fun j => k + 1 + Z.of_nat j) (seq 1 n).
Proof.
  rewrite <- (seq_shift n 1), map_map. apply map_ext. intros j. lia.
Qed.

Lemma forEachRow_rows (l : list transaction) (k : Z) :
  let rs := rows (forEachRow l k) in
  map row_tx rs = l /\
  map row_serial rs = map (fun j => k + Z.of_nat j) (seq 1 (List.length l)) /\
  map data_id rs = map id l.
Proof.
  cbv zeta. revert k. induction l as [|tx l IH]; intros k; simpl.
  - repeat split.
  - destruct (IH (k + 1)) as (A & B & C). fold (rows (forEachRow l (k + 1))).
    rewrite A, B, C, serials_shift. repeat split.
Qed.

Lemma forEachRow_rows0 (toStr : number -> jsstring)
  (l : list Part000.transaction) (k : Z) :
  let rs := Part000.rows (Part000.forEachRow toStr l k) in
  map Part000.row_tx rs = l /\
  map Part000.row_serial rs =
    map (fun j => k + Z.of_nat j) (seq 1 (List.length l)) /\
  map Part000.data_id rs = map Part000.id l.
Proof.
  cbv zeta. revert k. induction l as [|tx l IH]; intros k; simpl.
  - repeat split.
  - destruct (IH (k + 1)) as (A & B & C).
    fold (Part000.rows (Part000.forEachRow toStr l (k + 1))).
    rewrite A, B, C, serials_shift. repeat split.
Qed.

Lemma jslength_0 (A : Type) (l : list A) : (jslength l =? 0) = true -> l = [].
Proof. destruct l; [reflexivity|]. unfold jslength. simpl. discriminate. Qed.

(** C6.  For every store contents, the rows [renderTable] builds show the
    transactions in the exact reverse of insertion order, their serials
    are 1, 2, ..., N from the top, whatever the ids, and each row's delete
    button carries the id of its own transaction.  This holds in both
    revisions of the script. *)
Theorem C6_renderTable_newest_first
  (txs : list transaction)
  (Number_toString : number -> jsstring) (txs0 : list Part000.transaction) :
  let rs := rows (tbody (renderTable txs)) in
  let rs0 := Part000.rows (Part000.tbody (Part000.renderTable Number_toString txs0)) in
  map row_tx rs = rev txs /\
  map row_serial rs = map Z.of_nat (seq 1 (List.length txs)) /\
  map data_id rs = map id (rev txs) /\
  map Part000.row_tx rs0 = rev txs0 /\
  map Part000.row_serial rs0 = map Z.of_nat (seq 1 (List.length txs0)) /\
  map Part000.data_id rs0 = map Part000.id (rev txs0).
Proof.
  cbv zeta. unfold renderTable, Part000.renderTable. simpl.
  assert (S1 : forall n, map (fun j => 0 + Z.of_nat j) (seq 1 n) =
                         map Z.of_nat (seq 1 n)) by (intros n; now apply map_ext).
  split; [|split; [|split; [|split; [|split]]]].
  1-3: destruct (jslength txs =? 0) eqn:E;
    [apply jslength_0 in E; subst txs; reflexivity|];
    destruct (forEachRow_rows (rev txs) 0) as (A & B & C);
    rewrite ?A, ?B, ?C, ?length_rev, ?S1; reflexivity.
  all: destruct (jslength txs0 =? 0) eqn:E;
    [apply jslength_0 in E; subst txs0; reflexivity|];
    destruct (forEachRow_rows0 Number_toString (rev txs0) 0) as (A & B & C);
    rewrite ?A, ?B, ?C, ?length_rev, ?S1; reflexivity.
Qed.

(** ** C3 *)

(** C3, at the input where the revision [part_000] departs from it: a
    description of 101 characters, with a good amount and date, passes its
    [validateInputs] with no field marked and is stored by
    [handleFormSubmit], whereas [validateInputs] of [script.js] marks the
    description and rejects the same form. *)
Theorem C3_part000_accepts_long_description :
  jslength (trim longDescription) = 101 /\
  Part000.validateInputs (trim longDescription) (parseFloat (js "5"))
    (js "2026-01-01") = (true, []) /\
  accepts0 longForm0 = true /\
  map Part000.description
    (Part000.transactions
       (Part000.page_store (Part000.handleFormSubmit longForm0 Part000.init)))
  = [longDescription] /\
  marked SEL_description (validateInputs (readFormValues longForm)) = true /\
  accepts longForm = false.
Proof. vm_compute. repeat split. Qed.

(** ** C9 *)

(** The examples of currency formatting, on [formatCurrency] of both
    revisions. *)
Lemma formatCurrency_examples :
  formatCurrency (parseFloat (js "1234.5")) = js "$1,234.50" /\
  formatCurrency (parseFloat (js "-250")) = js "-$250.00" /\
  formatCurrency (parseFloat (js "0")) = js "$0.00" /\
  formatCurrency (parseFloat (js "-0")) = js "$0.00" /\
  Part000.formatCurrency (parseFloat (js "1234.5")) = js "$1,234.50" /\
  Part000.formatCurrency (parseFloat (js "-250")) = js "-$250.00" /\
  Part000.formatCurrency (parseFloat (js "0")) = js "$0.00".
Proof. vm_compute. repeat split. Qed.

(** [toLocaleString] rounds the shortest decimal that reads back as the
    number, not the exact binary value: 1.005, whose binary value lies
    below the decimal 1.005, shows as 1.01, a tie goes away from zero, and
    2^70 shows the seventeen digits of its shortest decimal followed by
    zeros. *)
Lemma formatCurrency_shortest_decimal :
  formatCurrency (parseFloat (js "1.005")) = js "$1.01" /\
  formatCurrency (parseFloat (js "0.125")) = js "$0.13" /\
  formatCurrency (of_Z (2 ^ 70)) = js "$1,180,591,620,717,411,300,000.00" /\
  Part000.formatCurrency (parseFloat (js "1.005")) = js "$1.01".
Proof. vm_compute. repeat split. Qed.

Lemma two_digits (m : Z) :
  0 <= m < 100 ->
  exists d1 d2, padStart 2 (digits m) = [d1; d2] /\
                isDigit d1 = true /\ isDigit d2 = true.
Proof.
  intros Hm.
  assert (H : forallb
                (fun k => match padStart 2 (digits (Z.of_nat k)) with
                          | [d1; d2] => isDigit d1 && isDigit d2
                          | _ => false
                          end) (seq 0 100) = true) by (vm_compute; reflexivity).
  rewrite forallb_forall in H. specialize (H (Z.to_nat m)).
  rewrite Z2Nat.id in H by lia.
  assert (Hin : In (Z.to_nat m) (seq 0 100)) by (apply in_seq; lia).
  apply H in Hin.
  destruct (padStart 2 (digits m)) as [|d1 [|d2 [|? ?]]]; try discriminate.
  apply andb_true_iff in Hin. exists d1, d2. tauto.
Qed.

Lemma roundScaled_nonneg (f : Z) (x : number) : 0 <= f -> 0 <= roundScaled f x.
Proof.
  intros Hf. pose proof (Z.pow_nonneg 10 f ltac:(lia)) as H10.
  destruct x as [s|s| |s m e]; unfold roundScaled; try lia.
  destruct e as [|p|p].
  - apply Z.mul_nonneg_nonneg; [|exact H10].
    apply Z.mul_nonneg_nonneg; [lia | apply Z.pow_nonneg; lia].
  - apply Z.mul_nonneg_nonneg; [|exact H10].
    apply Z.mul_nonneg_nonneg; [lia | apply Z.pow_nonneg; lia].
  - apply Z.div_pos; [|apply Z.pow_pos_nonneg; lia].
    apply Z.add_nonneg_nonneg; [|apply Z.pow_nonneg; lia].
    apply Z.mul_nonneg_nonneg; [lia | exact H10].
Qed.

Lemma fraction_sign (x : number) :
  0 <= fst (fraction x) /\ 0 < snd (fraction x).
Proof.
  destruct x as [s|s| |s m [|p|p]]; unfold fraction; cbn [fst snd]; lia.
Qed.

Lemma scaledFloor_nonneg (num den q : Z) :
  0 <= num -> 0 < den -> 0 <= scaledFloor num den q.
Proof.
  intros Hn Hd. destruct q as [|p|p]; unfold scaledFloor.
  - apply Z.div_pos; lia.
  - pose proof (Z.pow_pos_nonneg 10 (Zpos p) ltac:(lia) ltac:(lia)).
    apply Z.div_pos; [exact Hn | nia].
  - pose proof (Z.pow_pos_nonneg 10 (Zpos p) ltac:(lia) ltac:(lia)).
    apply Z.div_pos; [nia | exact Hd].
Qed.

Lemma shortestFrom_nonneg (x : number) (n k : Z) (fuel : nat) :
  0 <= fst (shortestFrom x n k fuel).
Proof.
  pose proof (fraction_sign x) as [Hn Hd].
  revert k. induction fuel as [|fuel IH]; intros k; simpl;
    destruct (fraction x) as [num den]; simpl in Hn, Hd;
    pose proof (scaledFloor_nonneg num den (n - k) Hn Hd) as L.
  - exact L.
  - destruct (readsBack x (scaledFloor num den (n - k)) (n - k)),
             (readsBack x (scaledFloor num den (n - k) + 1) (n - k));
      simpl; try lia.
    + destruct (nearerUp num den (scaledFloor num den (n - k)) (n - k));
        simpl; lia.
    + apply IH.
Qed.

Lemma shortest_nonneg (x : number) : 0 <= fst (shortest x).
Proof.
  destruct x as [s|s| |s m e]; unfold shortest; cbn [fst]; try lia.
  apply shortestFrom_nonneg.
Qed.

Lemma roundDecimal_nonneg (f : Z) (d : Z * Z) :
  0 <= fst d -> 0 <= roundDecimal f d.
Proof.
  destruct d as [s q]. cbn [fst]. intros Hs. unfold roundDecimal.
  destruct (q + f) as [|p|p].
  - lia.
  - pose proof (Z.pow_pos_nonneg 10 (Zpos p) ltac:(lia) ltac:(lia)). nia.
  - pose proof (Z.pow_pos_nonneg 10 (Zpos p) ltac:(lia) ltac:(lia)).
    apply Z.div_pos; lia.
Qed.

Lemma toLocaleString_abs (value : number) :
  isFinite value = true ->
  toLocaleString (js_abs value) =
  group (digits (roundDecimal 2 (shortest (js_abs value)) / 100)) ++
  js "." ++
  padStart 2 (digits (roundDecimal 2 (shortest (js_abs value)) mod 100)).
Proof. destruct value; intros H; try discriminate H; reflexivity. Qed.

(** Every finite value is shown by [formatCurrency] of [script.js] as an
    optional leading minus, the dollar sign, the grouped digits of the whole
    part, a point and exactly two digits. *)
Lemma formatCurrency_shape (value : number) :
  isFinite value = true ->
  exists whole d1 d2,
    0 <= whole /\ isDigit d1 = true /\ isDigit d2 = true /\
    formatCurrency value =
    (if js_lt value zero then js "-" else []) ++ js "$" ++
    group (digits whole) ++ js "." ++ [d1; d2].
Proof.
  intros Hfin. unfold formatCurrency.
  rewrite (toLocaleString_abs value Hfin).
  set (n := roundDecimal 2 (shortest (js_abs value))).
  assert (Hn : 0 <= n) by (apply roundDecimal_nonneg, shortest_nonneg).
  destruct (two_digits (n mod 100)) as (d1 & d2 & E & H1 & H2).
  { apply Z.mod_pos_bound. lia. }
  exists (n / 100), d1, d2.
  split; [apply Z.div_pos; lia|]. split; [exact H1|]. split; [exact H2|].
  now rewrite E.
Qed.

(** C9, at the input where the revision [part_000] departs from it: the
    amount cell that its [buildRow] shows for 1234.5 is "$1234.50", with
    no thousands separator, whereas its own [formatCurrency], and the row
    of [script.js], give "$1,234.50". *)
Theorem C9_part000_row_amount_ungrouped (Number_toString : number -> jsstring) :
  Part000.amount_cell (Part000.buildRow Number_toString bonus0 1) =
    js "$1234.50" /\
  Part000.formatCurrency (Part000.amount bonus0) = js "$1,234.50" /\
  amount_cell (buildRow bonus 1) = js "$1,234.50".
Proof. vm_compute. repeat split. Qed.

(** ** C10 *)


(** * Further properties of the code *)

(** ** Trimming *)

Lemma trimStart_idem (s : jsstring) : trimStart (trimStart s) = trimStart s.
Proof.
  induction s as [|c r IH]; simpl; [reflexivity|].
  destruct (isWhiteSpace c) eqn:E; [exact IH|]. simpl. now rewrite E.
Qed.

Lemma trimStart_snoc (l : jsstring) (c : N) :
  isWhiteSpace c = false -> trimStart (l ++ [c]) = trimStart l ++ [c].
Proof.
  intros Hc. induction l as [|a l IH]; simpl.
  - now rewrite Hc.
  - destruct (isWhiteSpace a); [exact IH | reflexivity].
Qed.

Lemma trimStart_cases (s : jsstring) :
  trimStart s = [] \/
  exists c r, trimStart s = c :: r /\ isWhiteSpace c = false.
Proof.
  induction s as [|c r IH]; simpl; [now left|].
  destruct (isWhiteSpace c) eqn:E; [exact IH|]. right. now exists c, r.
Qed.

Lemma trimEnd_head (c : N) (r : jsstring) :
  isWhiteSpace c = false ->
  exists r', trimEnd (c :: r) = c :: r'.
Proof.
  intros Hc. unfold trimEnd. simpl rev. rewrite (trimStart_snoc _ _ Hc).
  rewrite rev_app_distr. simpl. now eexists.
Qed.

Lemma trim_idem (s : jsstring) : trim (trim s) = trim s.
Proof.
  assert (E0 : trim s = trimEnd (trimStart s)) by reflexivity.
  destruct (trimStart_cases s) as [E | (c & r & E & Hc)]; rewrite E in E0.
  - rewrite E0. reflexivity.
  - destruct (trimEnd_head c r Hc) as (r' & E').
    rewrite E0. unfold trim at 1. rewrite E' at 1. simpl trimStart.
    rewrite Hc, <- E'. unfold trimEnd.
    rewrite rev_involutive, trimStart_idem. reflexivity.
Qed.

Lemma trimStart_blank (s : jsstring) :
  forallb isWhiteSpace s = true -> trimStart s = [].
Proof.
  induction s as [|c r IH]; simpl; [reflexivity|].
  intros H. apply andb_true_iff in H. destruct H as [Hc Hr].
  rewrite Hc. now apply IH.
Qed.

Lemma trim_blank (s : jsstring) : forallb isWhiteSpace s = true -> trim s = [].
Proof. intros H. unfold trim. now rewrite (trimStart_blank s H). Qed.

(** ** Comparisons with zero *)

Lemma positive_of_checks (x : number) :
  isNaN x = false -> js_le x zero = false -> js_lt zero x = true.
Proof. destruct x as [[]|[]| |[] m e]; cbn; congruence. Qed.

Lemma js_lt_le_zero (x : number) :
  isNaN x = false -> js_lt zero x = negb (js_le x zero).
Proof. destruct x as [[]|[]| |[] m e]; cbn; congruence. Qed.

Lemma positive_nonnegative (x : number) :
  js_lt zero x = true -> nonnegative x = true.
Proof. destruct x as [[]|[]| |[] m e]; cbn; congruence. Qed.

Lemma nonnegative_not_lt (x : number) :
  nonnegative x = true -> js_lt x zero = false.
Proof. destruct x as [[]|[]| |[] m e]; cbn; congruence. Qed.

(** ** The validators as boolean functions *)

Lemma amount_check (a : jsstring) :
  jsstring_eqb a [] || isNaN (parseFloat a) || js_le (parseFloat a) zero =
  isNaN (parseFloat a) || js_le (parseFloat a) zero.
Proof.
  destruct (jsstring_eqb a []) eqn:E; [|reflexivity].
  apply jsstring_eqb_eq in E. now rewrite E.
Qed.

Lemma Script_checks (data : formData) :
  let v := validateInputs data in
  let amt := parseFloat (data_amount data) in
  marked SEL_description v =
    falsy (data_description data) ||
    (jslength (data_description data) >? maxDescLen) /\
  marked SEL_amount v = isNaN amt || js_le amt zero /\
  marked SEL_date v = falsy (data_date data) /\
  fst v = negb (marked SEL_description v) && negb (marked SEL_amount v) &&
          negb (marked SEL_date v).
Proof.
  cbv zeta. unfold validateInputs.
  rewrite jslength_lt_1, orb_diag, amount_check.
  destruct (falsy (data_description data));
    destruct (jslength (data_description data) >? maxDescLen);
    destruct (isNaN (parseFloat (data_amount data)) ||
              js_le (parseFloat (data_amount data)) zero);
    destruct (falsy (data_date data));
    cbn; repeat split.
Qed.

Lemma Part000_checks (description : jsstring) (amount : number)
  (date : jsstring) :
  let v := Part000.validateInputs description amount date in
  Part000.marked Part000.txDescription_input v = falsy description /\
  Part000.marked Part000.txAmount_input v = isNaN amount || js_le amount zero /\
  Part000.marked Part000.txDate_input v = falsy date /\
  fst v = negb (falsy description) &&
          negb (isNaN amount || js_le amount zero) && negb (falsy date).
Proof.
  cbv zeta. unfold Part000.validateInputs.
  destruct (falsy description);
    destruct (isNaN amount || js_le amount zero);
    destruct (falsy date); cbn; repeat split.
Qed.

Lemma falsy_false (s : jsstring) : falsy s = false <-> s <> [].
Proof. destruct s; simpl; split; congruence. Qed.

Lemma amount_ok (x : number) :
  isNaN x || js_le x zero = false <-> isNaN x = false /\ js_lt zero x = true.
Proof.
  rewrite orb_false_iff. split; intros [H1 H2]; split; trivial.
  - now apply positive_of_checks.
  - rewrite (js_lt_le_zero x H1) in H2. now apply negb_true_iff in H2.
Qed.

(** ** Acceptance by the form of [script.js] *)

Lemma accepts_facts (f : form) :
  accepts f = true ->
  trim (txDescription f) <> [] /\
  jslength (trim (txDescription f)) <= 100 /\
  isNaN (parseFloat (txAmount f)) = false /\
  js_lt zero (parseFloat (txAmount f)) = true /\
  txDate f <> [].
Proof.
  unfold accepts.
  destruct (Script_checks (readFormValues f)) as (D & A & T & V).
  cbv zeta in *. rewrite V, D, A, T. simpl.
  rewrite !andb_true_iff, !negb_true_iff, orb_false_iff, amount_ok,
    !falsy_false.
  unfold maxDescLen. rewrite Z.gtb_ltb, Z.ltb_ge. tauto.
Qed.

(** [handleFormSubmit] of [script.js] lets a form through exactly when the
    trimmed description is not empty and has at most 100 code units, the
    amount text parses to a number that is not NaN and is greater than 0,
    and the date is not empty. *)
Theorem script_accepts_iff (f : form) :
  accepts f = true <->
  trim (txDescription f) <> [] /\
  jslength (trim (txDescription f)) <= 100 /\
  isNaN (parseFloat (txAmount f)) = false /\
  js_lt zero (parseFloat (txAmount f)) = true /\
  txDate f <> [].
Proof.
  unfold accepts.
  destruct (Script_checks (readFormValues f)) as (D & A & T & V).
  cbv zeta in *. rewrite V, D, A, T. simpl.
  rewrite !andb_true_iff, !negb_true_iff, orb_false_iff, amount_ok,
    !falsy_false.
  unfold maxDescLen. rewrite Z.gtb_ltb, Z.ltb_ge. tauto.
Qed.

(** The form of [part_000] lets a form through exactly when the trimmed
    description is not empty, the amount parses to a number that is not
    NaN and is greater than 0, and the date is not empty; and the two
    revisions give the same verdict on the same field values unless the
    trimmed description is longer than 100 code units, which only
    [script.js] rejects. *)
Theorem validators_differ_only_on_length (f : form) :
  (accepts0 (asForm0 f) = true <->
     trim (txDescription f) <> [] /\
     isNaN (parseFloat (txAmount f)) = false /\
     js_lt zero (parseFloat (txAmount f)) = true /\
     txDate f <> []) /\
  accepts f =
    accepts0 (asForm0 f) && (jslength (trim (txDescription f)) <=? 100).
Proof.
  unfold accepts, accepts0.
  destruct (Script_checks (readFormValues f)) as (D & A & T & V).
  destruct (Part000_checks (trim (txDescription f))
              (parseFloat (txAmount f)) (txDate f)) as (_ & _ & _ & V0).
  cbv zeta in *. simpl in *. split.
  - rewrite V0, !andb_true_iff, !negb_true_iff, amount_ok, !falsy_false. tauto.
  - rewrite V, V0, D, A, T. unfold maxDescLen.
    rewrite Z.gtb_ltb, Z.leb_antisym.
    destruct (falsy (trim (txDescription f)));
      destruct (100 <? jslength (trim (txDescription f)));
      destruct (isNaN (parseFloat (txAmount f)) ||
                js_le (parseFloat (txAmount f)) zero);
      destruct (falsy (txDate f)); reflexivity.
Qed.

(** A description made only of white space is rejected by the form of
    both revisions, with the description field marked, whatever the other
    fields hold. *)
Theorem blank_description_rejected (f : form) :
  forallb isWhiteSpace (txDescription f) = true ->
  accepts f = false /\
  marked SEL_description (validateInputs (readFormValues f)) = true /\
  accepts0 (asForm0 f) = false /\
  Part000.marked Part000.txDescription_input
    (Part000.validateInputs (trim (txDescription f))
       (parseFloat (txAmount f)) (txDate f)) = true.
Proof.
  intros H. apply trim_blank in H. unfold accepts, accepts0.
  destruct (Script_checks (readFormValues f)) as (D & _ & _ & V).
  destruct (Part000_checks (trim (txDescription f))
              (parseFloat (txAmount f)) (txDate f)) as (D0 & _ & _ & V0).
  cbv zeta in *. simpl in *.
  rewrite V, V0, D, D0, H. repeat split.
Qed.

Lemma blank_description_rejected_witness :
  forallb isWhiteSpace (txDescription blankForm) = true /\
  accepts blankForm = false /\
  accepts0 (asForm0 blankForm) = false.
Proof.
  assert (H : forallb isWhiteSpace (txDescription blankForm) = true)
    by reflexivity.
  destruct (blank_description_rejected blankForm H) as (A & _ & B & _).
  repeat split; assumption.
Defined.

(** ** Live feedback against the submit check *)

(** The ['input'] listener of the amount field takes the invalid mark off
    exactly when a submit would not mark the amount.  The listener of the
    description field takes the mark off whenever a submit would not mark
    the description, and also for a description longer than 100 code
    units, which a submit marks again. *)
Theorem live_checks_against_submit (f : form) :
  let v := validateInputs (readFormValues f) in
  amountInputClears (txAmount f) = negb (marked SEL_amount v) /\
  descriptionInputClears (txDescription f) =
    negb (marked SEL_description v) ||
    (jslength (trim (txDescription f)) >? 100).
Proof.
  cbv zeta.
  destruct (Script_checks (readFormValues f)) as (D & A & _ & _).
  cbv zeta in *. simpl in *. rewrite D, A. split.
  - unfold amountInputClears. cbv zeta.
    destruct (isNaN (parseFloat (txAmount f))) eqn:E; [reflexivity|].
    simpl. now apply js_lt_le_zero.
  - unfold descriptionInputClears, maxDescLen.
    destruct (trim (txDescription f)) as [|c r] eqn:E; [reflexivity|].
    unfold jslength. simpl List.length. simpl falsy.
    destruct (Z.of_nat (S (List.length r)) >? 100); simpl;
      rewrite ?orb_true_r; reflexivity.
Qed.

(** ** Ids are handed out consecutively *)

Lemma run_length (ops : list op) (s : store) :
  (List.length (transactions (run s ops)) <=
   List.length (transactions s) + adds ops)%nat.
Proof.
  revert s. induction ops as [|o ops IH]; intros s; [simpl; lia|].
  change (run s (o :: ops)) with (run (step s o) ops).
  specialize (IH (step s o)). destruct o as [now data|i].
  - change (adds (Add now data :: ops)) with (S (adds ops)).
    assert (L : List.length (transactions (step s (Add now data))) =
                S (List.length (transactions s)))
      by (simpl; rewrite length_app; simpl; lia).
    lia.
  - change (adds (Remove i :: ops)) with (adds ops).
    assert (L : (List.length (transactions (step s (Remove i))) <=
                 List.length (transactions s))%nat)
      by apply filter_length_le.
    lia.
Qed.

(** Along every history of adds and removes from the empty store, the
    k-th add is handed the id k as long as k is below 2^53, and the id
    2^53 from then on; after n adds the counter stands at n + 1, or at
    2^53 once n + 1 would pass it; a remove never moves the counter, and
    the store never holds more than n records. *)
Theorem ids_consecutive (ops : list op) :
  assigned init ops =
    map (fun k => Z.min (Z.of_nat k) limit) (seq 1 (adds ops)) /\
  _nextId (run init ops) = Z.min (1 + Z.of_nat (adds ops)) limit /\
  (forall i s, _nextId (snd (removeTransaction i s)) = _nextId s) /\
  (List.length (transactions (run init ops)) <= adds ops)%nat.
Proof.
  destruct (assigned_init ops) as [A B].
  split.
  { rewrite B, <- seq_shift, map_map. apply map_ext. intros k.
    f_equal. lia. }
  split; [exact A|]. split; [reflexivity|].
  exact (run_length ops init).
Qed.

(** ** The store is kept in id order *)

(** In every store reached from the empty one by a history with at most
    2^53 adds, the records are in strictly increasing order of id, so the
    rows of the rendered table, top to bottom, carry strictly decreasing
    ids on their delete buttons. *)
Theorem table_in_decreasing_id_order (ops : list op) :
  let s := run init ops in
  Z.of_nat (adds ops) <= limit ->
  StronglySorted Z.lt (ids s) /\
  StronglySorted Z.gt
    (map data_id (rows (tbody (renderTable (transactions s))))).
Proof.
  cbv zeta. intros Hb.
  destruct (run_counted ops init 0 counted_init) as (Hs & _); [lia|].
  split; [exact Hs|].
  unfold renderTable. simpl tbody.
  destruct (jslength (transactions (run init ops)) =? 0) eqn:E.
  - simpl. constructor.
  - destruct (forEachRow_rows (rev (transactions (run init ops))) 0)
      as (_ & _ & C).
    rewrite C, map_rev. now apply sorted_rev.
Qed.

Lemma table_in_decreasing_id_order_witness :
  Z.of_nat (adds twoAdds) <= limit /\
  StronglySorted Z.lt (ids (run init twoAdds)) /\
  map data_id (rows (tbody (renderTable (transactions (run init twoAdds)))))
  = [2; 1].
Proof.
  assert (Hb : Z.of_nat (adds twoAdds) <= limit)
    by (vm_compute; discriminate).
  destruct (table_in_decreasing_id_order twoAdds Hb) as [A _].
  split; [exact Hb|]. split; [exact A | vm_compute; reflexivity].
Defined.

(** ** Sessions on the page of [script.js] *)

Lemma handle_cases (s : store) (e : event) :
  handle s e = s \/ exists o, handle s e = step s o.
Proof.
  destruct e as [now f|i]; simpl.
  - unfold handleFormSubmit.
    destruct (fst (validateInputs (readFormValues f))); simpl.
    + right. now exists (Add now (readFormValues f)).
    + now left.
  - right. now exists (Remove i).
Qed.

Lemma handle_counted (s : store) (e : event) (n : Z) :
  counted (ids s) (_nextId s) n -> n < limit ->
  exists n', n <= n' <= n + 1 /\
             counted (ids (handle s e)) (_nextId (handle s e)) n'.
Proof.
  intros H Hn. destruct (handle_cases s e) as [-> | ([now data|i] & ->)].
  - exists n. split; [lia | exact H].
  - exists (n + 1). split; [lia|]. unfold step.
    rewrite ids_add, nextId_add. now apply counted_add.
  - exists n. split; [lia|]. unfold step.
    rewrite ids_remove, nextId_remove. now apply counted_filter.
Qed.

Lemma session_counted (es : list event) (s : store) (n : Z) :
  counted (ids s) (_nextId s) n ->
  n + Z.of_nat (List.length es) <= limit ->
  exists n', n <= n' <= n + Z.of_nat (List.length es) /\
             counted (ids (fold_left handle es s))
                     (_nextId (fold_left handle es s)) n'.
Proof.
  revert s n. induction es as [|e es IH]; intros s n H Hb.
  - exists n. simpl. split; [lia | exact H].
  - simpl List.length in *. rewrite Nat2Z.inj_succ in *.
    destruct (handle_counted s e n H) as (n1 & B1 & H1); [lia|].
    destruct (IH (handle s e) n1 H1) as (n2 & B2 & H2); [lia|].
    exists n2. split; [lia | exact H2].
Qed.

Lemma accepted_validated (now : jsstring) (f : form) (s : store) :
  accepts f = true ->
  validated (fst (addTransaction now (readFormValues f) s)).
Proof.
  intros H. apply accepts_facts in H. destruct H as (A & B & C & D & E).
  unfold validated. simpl. rewrite trim_idem. repeat split; assumption.
Qed.

Lemma handle_validated (s : store) (e : event) :
  Forall validated (transactions s) ->
  Forall validated (transactions (handle s e)).
Proof.
  intros H. destruct e as [now f|i]; simpl.
  - unfold handleFormSubmit.
    destruct (fst (validateInputs (readFormValues f))) eqn:E; simpl; [|exact H].
    apply Forall_app. split; [exact H|]. constructor; [|constructor].
    exact (accepted_validated now f s E).
  - rewrite Forall_forall in *. intros tx Htx. apply filter_In in Htx.
    apply H. tauto.
Qed.

Lemma session_validated (es : list event) (s : store) :
  Forall validated (transactions s) ->
  Forall validated (transactions (fold_left handle es s)).
Proof.
  revert s. induction es as [|e es IH]; intros s Hv; simpl; [exact Hv|].
  apply IH. now apply handle_validated.
Qed.

(** Whatever is submitted and deleted on the page of [script.js], every
    record in the store has a description that is not empty, is trimmed
    and has at most 100 code units, an amount that is not NaN and is
    greater than 0, and a date that is not empty; and in a session of
    fewer than 2^53 events the records are in strictly increasing order
    of id, all below the counter. *)
Theorem session_records_validated (es : list event) :
  Forall validated (transactions (session es)) /\
  (Z.of_nat (List.length es) < limit ->
   StronglySorted Z.lt (ids (session es)) /\
   (forall i, In i (ids (session es)) -> i < _nextId (session es))).
Proof.
  split; [apply session_validated; constructor|]. intros Hb.
  destruct (session_counted es init 0 counted_init)
    as (n & Bn & Hs & Hle & Hc & _); [lia|].
  split; [exact Hs|]. intros i Hi. apply Hle in Hi.
  unfold session. lia.
Qed.

Lemma session_records_validated_witness :
  Z.of_nat (List.length sampleSession) < limit /\
  StronglySorted Z.lt (ids (session sampleSession)) /\
  Forall validated (transactions (session sampleSession)).
Proof.
  assert (Hb : Z.of_nat (List.length sampleSession) < limit)
    by (vm_compute; reflexivity).
  destruct (session_records_validated sampleSession) as [V O].
  destruct (O Hb) as [S _].
  split; [exact Hb|]. split; [exact S | exact V].
Defined.

(** ** Sessions on the page of [part_000] *)

Lemma ids0_filter (i : Z) (l : list Part000.transaction) :
  map Part000.id (filter (fun tx => negb (Part000.id tx =? i)) l) =
  filter (fun j => negb (j =? i)) (map Part000.id l).
Proof.
  induction l as [|tx l IH]; simpl; [reflexivity|].
  destruct (Part000.id tx =? i); simpl; now rewrite IH.
Qed.

Lemma handle0_counted (s : Part000.store) (e : event0) (n : Z) :
  counted (ids0 s) (Part000.nextId s) n -> n < limit ->
  exists n', n <= n' <= n + 1 /\
             counted (ids0 (handle0 s e)) (Part000.nextId (handle0 s e)) n'.
Proof.
  intros H Hn. destruct e as [f|i]; simpl.
  - unfold Part000.handleFormSubmit. cbv zeta.
    destruct (fst (Part000.validateInputs _ _ _));
      cbn [negb Part000.page_store].
    + exists (n + 1). split; [lia|].
      unfold ids0. cbn [Part000.transactions Part000.nextId].
      rewrite map_app. cbn [map Part000.id].
      now apply counted_add.
    + exists n. split; [lia | exact H].
  - exists n. split; [lia|]. unfold ids0.
    cbn [Part000.handleDelete snd Part000.transactions Part000.nextId].
    rewrite ids0_filter. now apply counted_filter.
Qed.

Lemma session0_counted (es : list event0) (s : Part000.store) (n : Z) :
  counted (ids0 s) (Part000.nextId s) n ->
  n + Z.of_nat (List.length es) <= limit ->
  exists n', n <= n' <= n + Z.of_nat (List.length es) /\
             counted (ids0 (fold_left handle0 es s))
                     (Part000.nextId (fold_left handle0 es s)) n'.
Proof.
  revert s n. induction es as [|e es IH]; intros s n H Hb.
  - exists n. simpl. split; [lia | exact H].
  - simpl List.length in *. rewrite Nat2Z.inj_succ in *.
    destruct (handle0_counted s e n H) as (n1 & B1 & H1); [lia|].
    destruct (IH (handle0 s e) n1 H1) as (n2 & B2 & H2); [lia|].
    exists n2. split; [lia | exact H2].
Qed.

Lemma handle0_validated (s : Part000.store) (e : event0) :
  Forall validated0 (Part000.transactions s) ->
  Forall validated0 (Part000.transactions (handle0 s e)).
Proof.
  intros H. destruct e as [f|i]; simpl.
  - unfold Part000.handleFormSubmit.
    destruct (Part000_checks (trim (Part000.txDescription f))
                (parseFloat (Part000.txAmount f)) (Part000.txDate f))
      as (_ & _ & _ & V). cbv zeta in V.
    destruct (fst (Part000.validateInputs _ _ _)); simpl; [|exact H].
    symmetry in V. rewrite !andb_true_iff, !negb_true_iff in V.
    destruct V as ((D & A) & T). apply amount_ok in A. destruct A as [A1 A2].
    apply Forall_app. split; [exact H|]. constructor; [|constructor].
    unfold validated0. simpl. rewrite trim_idem.
    apply falsy_false in D, T. repeat split; assumption.
  - rewrite Forall_forall in *. intros tx Htx. apply filter_In in Htx.
    apply H. tauto.
Qed.

Lemma session0_validated (es : list event0) (s : Part000.store) :
  Forall validated0 (Part000.transactions s) ->
  Forall validated0 (Part000.transactions (fold_left handle0 es s)).
Proof.
  revert s. induction es as [|e es IH]; intros s Hv; simpl; [exact Hv|].
  apply IH. now apply handle0_validated.
Qed.

(** Whatever is submitted and deleted on the page of [part_000], every
    record in the store has a trimmed description that is not empty, an
    amount that is not NaN and is greater than 0, and a date that is not
    empty; and in a session of fewer than 2^53 events the records are in
    strictly increasing order of id, hence pairwise distinct, and all ids
    are below the counter. *)
Theorem session0_records_validated (es : list event0) :
  Forall validated0 (Part000.transactions (session0 es)) /\
  (Z.of_nat (List.length es) < limit ->
   StronglySorted Z.lt (ids0 (session0 es)) /\
   NoDup (ids0 (session0 es)) /\
   (forall i, In i (ids0 (session0 es)) ->
              i < Part000.nextId (session0 es))).
Proof.
  split; [apply session0_validated; constructor|]. intros Hb.
  assert (H0 : counted (ids0 Part000.init) (Part000.nextId Part000.init) 0).
  { unfold counted. split; [constructor|]. split; [intros i []|].
    split; [vm_compute; reflexivity | lia]. }
  destruct (session0_counted es Part000.init 0 H0)
    as (n & Bn & Hs & Hle & Hc & _); [lia|].
  split; [exact Hs|]. split; [now apply sorted_NoDup|].
  intros i Hi. apply Hle in Hi. unfold session0. lia.
Qed.

Lemma session0_records_validated_witness :
  Z.of_nat (List.length sampleSession0) < limit /\
  StronglySorted Z.lt (ids0 (session0 sampleSession0)) /\
  ids0 (session0 sampleSession0) = [2] /\
  Forall validated0 (Part000.transactions (session0 sampleSession0)).
Proof.
  assert (Hb : Z.of_nat (List.length sampleSession0) < limit)
    by (vm_compute; reflexivity).
  destruct (session0_records_validated sampleSession0) as [V O].
  destruct (O Hb) as [S _].
  split; [exact Hb|]. split; [exact S|].
  split; [vm_compute; reflexivity | exact V].
Defined.

(** ** Deleting by the id on a row *)






(** ** An accepted submit *)







(** ** Sums of amounts greater than zero *)

Lemma shr_1_nonneg (mrs : shr_record) :
  0 <= shr_m mrs -> 0 <= shr_m (shr_1 mrs).
Proof.
  destruct mrs as [m r s]. destruct m as [|p|p]; simpl; try lia;
    destruct p; simpl; lia.
Qed.

Lemma iter_pos_keeps (A : Type) (P : A -> Prop) (f : A -> A) :
  (forall x, P x -> P (f x)) -> forall p x, P x -> P (iter_pos f p x).
Proof.
  intros Hf. induction p as [p IH|p IH|]; intros x Hx; simpl; auto.
Qed.

Lemma shr_fexp_nonneg (m e : Z) (l : location) :
  0 <= m -> 0 <= shr_m (fst (shr_fexp prec emax m e l)).
Proof.
  intros Hm. unfold shr_fexp, shr.
  assert (H0 : 0 <= shr_m (shr_record_of_loc m l))
    by (destruct l as [|[]]; exact Hm).
  destruct (fexp prec emax (Zdigits2 m + e) - e) as [|p|p]; simpl;
    try exact H0.
  apply (iter_pos_keeps _ (fun r => 0 <= shr_m r)); [|exact H0].
  apply shr_1_nonneg.
Qed.

Lemma round_nearest_even_nonneg (m : Z) (l : location) :
  0 <= m -> 0 <= round_nearest_even m l.
Proof.
  intros Hm. destruct l as [|[]]; simpl; try lia.
  destruct (Z.even m); lia.
Qed.

Lemma binary_round_aux_nonneg (mx ex : Z) (lx : location) :
  0 <= mx -> nonnegative (binary_round_aux prec emax false mx ex lx) = true.
Proof.
  intros Hm. unfold binary_round_aux.
  pose proof (shr_fexp_nonneg mx ex lx Hm) as H1.
  destruct (shr_fexp prec emax mx ex lx) as [mrs' e']. simpl in H1.
  pose proof (shr_fexp_nonneg
                (round_nearest_even (shr_m mrs') (loc_of_shr_record mrs'))
                e' loc_Exact
                (round_nearest_even_nonneg _ _ H1)) as H2.
  destruct (shr_fexp prec emax _ e' loc_Exact) as [mrs'' e'']. simpl in H2.
  destruct (shr_m mrs'') as [|p|p]; [reflexivity | | lia].
  destruct (e'' <=? emax - prec); reflexivity.
Qed.

Lemma js_add_nonneg (x y : number) :
  nonnegative x = true -> nonnegative y = true ->
  nonnegative (js_add x y) = true.
Proof.
  destruct x as [[]|[]| |[] mx ex]; try discriminate;
    destruct y as [[]|[]| |[] my ey]; try discriminate;
    intros _ _; try reflexivity.
  unfold js_add, SFadd, binary_normalize. simpl cond_Zopp.
  cbn [Z.add]. unfold binary_round.
  destruct (shl_align _ _ _) as [mz ez].
  apply binary_round_aux_nonneg. lia.
Qed.

Lemma pass_nonneg (T : Type) (typeOf : T -> jsstring) (amountOf : T -> number)
  (l : list T) (acc : number * number) :
  Forall (fun tx => nonnegative (amountOf tx) = true) l ->
  nonnegative (fst acc) = true -> nonnegative (snd acc) = true ->
  nonnegative (fst (fold_left (pass typeOf amountOf) l acc)) = true /\
  nonnegative (snd (fold_left (pass typeOf amountOf) l acc)) = true.
Proof.
  intros Hl. revert acc. induction Hl as [|tx l Htx _ IH]; intros acc H1 H2;
    simpl; [now split|].
  apply IH; unfold pass; destruct (isIncome typeOf tx); simpl; trivial;
    now apply js_add_nonneg.
Qed.

Lemma formatCurrency_dollar (x : number) :
  nonnegative x = true -> startsWith (js "$") (formatCurrency x) = true.
Proof.
  intros H. unfold formatCurrency. now rewrite (nonnegative_not_lt x H).
Qed.

Lemma updateSummary_texts (txs : list transaction) :
  let sm := updateSummary txs in
  totalIncome_text sm = formatCurrency (totalIncome sm) /\
  totalExpense_text sm = formatCurrency (totalExpense sm) /\
  balance_text sm = formatCurrency (netBalance sm) /\
  balance_text_danger sm = js_lt (netBalance sm) zero.
Proof.
  cbv zeta. unfold updateSummary.
  destruct (fold_left accumulate txs (zero, zero)). repeat split.
Qed.

(** Whatever is submitted and deleted on the page of [script.js], the
    income and expense totals that [updateSummary] computes are never NaN
    and never negative, and their cards start with the dollar sign, never
    with a minus. *)
Theorem totals_never_negative (es : list event) :
  let sm := updateSummary (transactions (session es)) in
  nonnegative (totalIncome sm) = true /\
  nonnegative (totalExpense sm) = true /\
  startsWith (js "$") (totalIncome_text sm) = true /\
  startsWith (js "$") (totalExpense_text sm) = true.
Proof.
  cbv zeta.
  pose proof (session_validated es init (Forall_nil _)) as V.
  fold (session es) in V.
  assert (P : Forall (fun tx => nonnegative (amount tx) = true)
                     (transactions (session es))).
  { eapply Forall_impl; [|exact V]. intros tx (_ & _ & _ & _ & H & _).
    now apply positive_nonnegative. }
  destruct (pass_nonneg _ type amount _ (zero, zero) P eq_refl eq_refl)
    as [A B].
  pose proof (Script_updateSummary_fold (transactions (session es))) as E.
  cbv zeta in E. unfold scriptTotals in E.
  assert (E1 : totalIncome (updateSummary (transactions (session es))) =
               fst (fold_left (pass type amount) (transactions (session es))
                      (zero, zero))) by congruence.
  assert (E2 : totalExpense (updateSummary (transactions (session es))) =
               snd (fold_left (pass type amount) (transactions (session es))
                      (zero, zero))) by congruence.
  rewrite <- E1 in A. rewrite <- E2 in B.
  destruct (updateSummary_texts (transactions (session es))) as (T1 & T2 & _).
  rewrite T1, T2.
  split; [exact A|]. split; [exact B|].
  split; now apply formatCurrency_dollar.
Qed.

(** ** The empty state of the table *)

Lemma forEachRow_no_emptyRow (l : list transaction) (k : Z) :
  ~ In emptyRow (forEachRow l k).
Proof.
  revert k. induction l as [|tx l IH]; intros k; simpl; [tauto|].
  intros [H | H]; [discriminate | now apply (IH (k + 1))].
Qed.

Lemma forEachRow_length (l : list transaction) (k : Z) :
  List.length (forEachRow l k) = List.length l.
Proof.
  revert k. induction l as [|tx l IH]; intros k; simpl; [reflexivity|].
  now rewrite IH.
Qed.

Lemma forEachRow0_no_emptyRow (toStr : number -> jsstring)
  (l : list Part000.transaction) (k : Z) :
  ~ In Part000.emptyRow (Part000.forEachRow toStr l k).
Proof.
  revert k. induction l as [|tx l IH]; intros k; simpl; [tauto|].
  intros [H | H]; [discriminate | now apply (IH (k + 1))].
Qed.

Lemma forEachRow0_length (toStr : number -> jsstring)
  (l : list Part000.transaction) (k : Z) :
  List.length (Part000.forEachRow toStr l k) = List.length l.
Proof.
  revert k. induction l as [|tx l IH]; intros k; simpl; [reflexivity|].
  now rewrite IH.
Qed.

Lemma jslength_0_iff (A : Type) (l : list A) : (jslength l =? 0) = true <-> l = [].
Proof.
  split; [apply jslength_0 | intros ->; reflexivity].
Qed.

Lemma empty_state_script (txs : list transaction) :
  (txs = [] <-> tbody (renderTable txs) = [emptyRow]) /\
  (txs = [] <-> In emptyRow (tbody (renderTable txs))) /\
  (txs <> [] <-> List.length (tbody (renderTable txs)) = List.length txs).
Proof.
  unfold renderTable. simpl tbody. destruct txs as [|tx l].
  - simpl. repeat split; try tauto; try discriminate.
  - change (jslength (tx :: l) =? 0) with false. cbv iota.
    pose proof (forEachRow_no_emptyRow (rev (tx :: l)) 0) as N.
    pose proof (forEachRow_length (rev (tx :: l)) 0) as L.
    rewrite length_rev in L.
    repeat split; try discriminate; try tauto.
    intros E. exfalso. apply N. rewrite E. now left.
Qed.

Lemma empty_state_part000 (toStr : number -> jsstring)
  (txs : list Part000.transaction) :
  (txs = [] <-> Part000.tbody (Part000.renderTable toStr txs) =
                [Part000.emptyRow]) /\
  (txs = [] <-> In Part000.emptyRow
                   (Part000.tbody (Part000.renderTable toStr txs))) /\
  (txs <> [] <-> List.length (Part000.tbody (Part000.renderTable toStr txs))
                 = List.length txs).
Proof.
  unfold Part000.renderTable. simpl Part000.tbody. destruct txs as [|tx l].
  - simpl. repeat split; try tauto; try discriminate.
  - change (jslength (tx :: l) =? 0) with false. cbv iota.
    pose proof (forEachRow0_no_emptyRow toStr (rev (tx :: l)) 0) as N.
    pose proof (forEachRow0_length toStr (rev (tx :: l)) 0) as L.
    rewrite length_rev in L.
    repeat split; try discriminate; try tauto.
    intros E. exfalso. apply N. rewrite E. now left.
Qed.

(** [renderTable] of both revisions shows the empty-state row, alone,
    exactly when there is no transaction; otherwise the body has one row
    per transaction and no empty-state row. *)
Theorem renderTable_empty_state
  (txs : list transaction)
  (Number_toString : number -> jsstring) (txs0 : list Part000.transaction) :
  let b := tbody (renderTable txs) in
  let b0 := Part000.tbody (Part000.renderTable Number_toString txs0) in
  (txs = [] <-> b = [emptyRow]) /\
  (txs = [] <-> In emptyRow b) /\
  (txs <> [] <-> List.length b = List.length txs) /\
  (txs0 = [] <-> b0 = [Part000.emptyRow]) /\
  (txs0 = [] <-> In Part000.emptyRow b0) /\
  (txs0 <> [] <-> List.length b0 = List.length txs0).
Proof.
  cbv zeta. split; [|split; [|split; [|split; [|split]]]].
  - apply (empty_state_script txs).
  - apply (empty_state_script txs).
  - apply (empty_state_script txs).
  - apply (empty_state_part000 Number_toString txs0).
  - apply (empty_state_part000 Number_toString txs0).
  - apply (empty_state_part000 Number_toString txs0).
Qed.

(** ** The record-count badge *)

Lemma uint_chars_inj (u v : Decimal.uint) :
  uint_chars u = uint_chars v -> u = v.
Proof.
  revert v. induction u as [|u IH|u IH|u IH|u IH|u IH|u IH|u IH|u IH|u IH|u IH];
    intros v H; destruct v; simpl in H; try discriminate H;
    try reflexivity; injection H as H; f_equal; now apply IH.
Qed.

Lemma digits_inj (a b : Z) : 0 <= a -> 0 <= b -> digits a = digits b -> a = b.
Proof.
  intros Ha Hb H. unfold digits in H. apply uint_chars_inj in H.
  apply DecimalN.Unsigned.to_uint_inj in H. lia.
Qed.

Lemma badge_plural_not_singular (n : Z) :
  digits n ++ js " records" <> js "1 record".
Proof.
  intros H. apply (f_equal (@rev N)) in H. rewrite rev_app_distr in H.
  simpl in H. discriminate H.
Qed.

Lemma badge_inj (n m : Z) :
  0 <= n -> 0 <= m ->
  (if n =? 1 then js "1 record" else digits n ++ js " records") =
  (if m =? 1 then js "1 record" else digits m ++ js " records") ->
  n = m.
Proof.
  intros Hn Hm.
  destruct (Z.eqb_spec n 1) as [-> | Nn], (Z.eqb_spec m 1) as [-> | Nm];
    intros H.
  - reflexivity.
  - symmetry in H. now apply badge_plural_not_singular in H.
  - now apply badge_plural_not_singular in H.
  - apply app_inv_tail in H. now apply digits_inj.
Qed.

(** The label of the count badge tells the number of transactions: in
    both revisions two lists get the same label only when they have the
    same length; the label is "1 record" exactly for one transaction, and
    the decimal count followed by " records" otherwise, zero included. *)
Theorem updateCountBadge_tells_count
  (txs txs' : list transaction) (txs0 txs0' : list Part000.transaction) :
  (updateCountBadge txs = updateCountBadge txs' <->
     List.length txs = List.length txs') /\
  (Part000.updateCountBadge txs0 = Part000.updateCountBadge txs0' <->
     List.length txs0 = List.length txs0') /\
  (updateCountBadge txs = js "1 record" <-> List.length txs = 1%nat) /\
  updateCountBadge [] = js "0 records" /\
  (List.length txs <> 1%nat ->
     updateCountBadge txs = digits (jslength txs) ++ js " records").
Proof.
  unfold updateCountBadge, Part000.updateCountBadge. cbv zeta.
  split; [|split; [|split; [|split]]].
  - split.
    + intros H. apply badge_inj in H; unfold jslength in *; lia.
    + intros H. unfold jslength. now rewrite H.
  - split.
    + intros H. apply badge_inj in H; unfold jslength in *; lia.
    + intros H. unfold jslength. now rewrite H.
  - unfold jslength. destruct (Z.eqb_spec (Z.of_nat (List.length txs)) 1) as [E | E].
    + split; [lia | reflexivity].
    + split; [|lia]. intros H. now apply badge_plural_not_singular in H.
  - reflexivity.
  - intros H. unfold jslength.
    destruct (Z.eqb_spec (Z.of_nat (List.length txs)) 1); [lia | reflexivity].
Qed.

Lemma updateCountBadge_tells_count_witness :
  List.length [salary; rent] <> 1%nat /\
  updateCountBadge [salary; rent] = js "2 records".
Proof.
  assert (H : List.length [salary; rent] <> 1%nat) by (simpl; lia).
  destruct (updateCountBadge_tells_count [salary; rent] [] [] [])
    as (_ & _ & _ & _ & E).
  split; [exact H|]. rewrite (E H). reflexivity.
Defined.

(** ** The minus sign of a formatted amount *)

Lemma uint_chars_digits (u : Decimal.uint) :
  Forall (fun c => isDigit c = true) (uint_chars u).
Proof. induction u; simpl; constructor; trivial. Qed.

Lemma groupRev_chars (d : jsstring) (k : nat) (c : N) :
  In c (groupRev d k) -> c = 44%N \/ In c d.
Proof.
  revert k. induction d as [|a d IH]; intros k; simpl; [tauto|].
  destruct k as [|[|[|[|k]]]]; simpl; intros H;
    repeat (destruct H as [H | H]; [subst; tauto|]);
    apply IH in H; tauto.
Qed.

Lemma no_minus_in_digits (n : Z) : ~ In 45%N (digits n).
Proof.
  intros H. pose proof (uint_chars_digits (N.to_uint (Z.to_N n))) as F.
  rewrite Forall_forall in F. apply F in H. discriminate H.
Qed.

Lemma no_minus_in_group (n : Z) : ~ In 45%N (group (digits n)).
Proof.
  unfold group. rewrite <- in_rev. intros H. apply groupRev_chars in H.
  destruct H as [H | H]; [discriminate H|].
  rewrite <- in_rev in H. now apply no_minus_in_digits in H.
Qed.

Lemma no_minus_in_padStart (k : nat) (n : Z) : ~ In 45%N (padStart k (digits n)).
Proof.
  unfold padStart. intros H. apply in_app_or in H. destruct H as [H | H].
  - apply repeat_spec in H. discriminate H.
  - now apply no_minus_in_digits in H.
Qed.

Lemma no_minus_in_abs (x : number) : ~ In 45%N (toLocaleString (js_abs x)).
Proof.
  destruct x as [s|s| |s m e]; simpl js_abs; unfold toLocaleString;
    simpl signOf; simpl isFinite; cbv iota; cbn [app].
  - intros H. apply in_app_or in H. destruct H as [H | H];
      [now apply no_minus_in_group in H|].
    apply in_app_or in H. destruct H as [H | H].
    + simpl in H. destruct H as [H | []]. discriminate H.
    + now apply no_minus_in_padStart in H.
  - simpl. intros [H | []]. discriminate H.
  - simpl. intros H. repeat (destruct H as [H | H]; [discriminate H|]). exact H.
  - intros H. apply in_app_or in H. destruct H as [H | H];
      [now apply no_minus_in_group in H|].
    apply in_app_or in H. destruct H as [H | H].
    + simpl in H. destruct H as [H | []]. discriminate H.
    + now apply no_minus_in_padStart in H.
Qed.

Lemma formatCurrency_minus (x : number) :
  startsWith (js "-") (formatCurrency x) = js_lt x zero /\
  count_occ N.eq_dec (formatCurrency x) 45%N =
    (if js_lt x zero then 1 else 0)%nat.
Proof.
  unfold formatCurrency.
  pose proof (no_minus_in_abs x) as H.
  apply (count_occ_not_In N.eq_dec) in H.
  destruct (js_lt x zero); split; try reflexivity.
  - change (js "-" ++ js "$" ++ toLocaleString (js_abs x))
      with (45%N :: 36%N :: toLocaleString (js_abs x)).
    rewrite count_occ_cons_eq by reflexivity.
    rewrite count_occ_cons_neq by discriminate. now rewrite H.
  - change ([] ++ js "$" ++ toLocaleString (js_abs x))
      with (36%N :: toLocaleString (js_abs x)).
    rewrite count_occ_cons_neq by discriminate. exact H.
Qed.

Lemma formatCurrency_same (x : number) :
  Part000.formatCurrency x = formatCurrency x.
Proof.
  unfold Part000.formatCurrency, formatCurrency.
  destruct (js_lt x zero); reflexivity.
Qed.

(** For every number, NaN and the infinities included, the text that
    [formatCurrency] gives starts with a minus sign exactly when the value
    is less than 0 (so not for 0 or -0), has no minus sign anywhere else,
    and is the same in both revisions. *)
Theorem formatCurrency_minus_sign (value : number) :
  startsWith (js "-") (formatCurrency value) = js_lt value zero /\
  count_occ N.eq_dec (formatCurrency value) 45%N =
    (if js_lt value zero then 1 else 0)%nat /\
  Part000.formatCurrency value = formatCurrency value.
Proof.
  destruct (formatCurrency_minus value) as [A B].
  split; [exact A|]. split; [exact B | apply formatCurrency_same].
Qed.

(** The balance card of [script.js] carries [text-danger] exactly when its
    text starts with a minus sign, for every list of transactions. *)
Theorem balance_danger_iff_minus (txs : list transaction) :
  let sm := updateSummary txs in
  balance_text_danger sm = startsWith (js "-") (balance_text sm).
Proof.
  cbv zeta. destruct (updateSummary_texts txs) as (_ & _ & T & D).
  cbv zeta in T, D. rewrite T, D.
  symmetry. apply formatCurrency_minus.
Qed.

(** ** Amounts beyond the number range *)

Lemma add_infinity_r (x : number) :
  nonnegative x = true -> js_add x Infinity = Infinity.
Proof. destruct x as [[]|[]| |[] m e]; try discriminate; reflexivity. Qed.

Lemma add_infinity_l (y : number) :
  nonnegative y = true -> js_add Infinity y = Infinity.
Proof. destruct y as [[]|[]| |[] m e]; try discriminate; reflexivity. Qed.

Section InfiniteTotals.

Variable T : Type.
Variable typeOf : T -> jsstring.
Variable amountOf : T -> number.

Lemma income_stays_infinite (l : list T) (acc : number * number) :
  Forall (fun tx => nonnegative (amountOf tx) = true) l ->
  fst acc = Infinity ->
  fst (fold_left (pass typeOf amountOf) l acc) = Infinity.
Proof.
  intros Hl. revert acc. induction Hl as [|tx l Htx _ IH]; intros acc H;
    simpl; [exact H|].
  apply IH. unfold pass. destruct (isIncome typeOf tx); simpl; [|exact H].
  rewrite H. now apply add_infinity_l.
Qed.

Lemma expense_stays_infinite (l : list T) (acc : number * number) :
  Forall (fun tx => nonnegative (amountOf tx) = true) l ->
  snd acc = Infinity ->
  snd (fold_left (pass typeOf amountOf) l acc) = Infinity.
Proof.
  intros Hl. revert acc. induction Hl as [|tx l Htx _ IH]; intros acc H;
    simpl; [exact H|].
  apply IH. unfold pass. destruct (isIncome typeOf tx); simpl; [exact H|].
  rewrite H. now apply add_infinity_l.
Qed.

Lemma income_turns_infinite (l : list T) (a : T) (acc : number * number) :
  Forall (fun tx => nonnegative (amountOf tx) = true) l ->
  In a l -> isIncome typeOf a = true -> amountOf a = Infinity ->
  nonnegative (fst acc) = true -> nonnegative (snd acc) = true ->
  fst (fold_left (pass typeOf amountOf) l acc) = Infinity.
Proof.
  intros Hl. revert acc.
  induction Hl as [|tx l Htx Hl IH]; intros acc Hin Ha Hinf H1 H2;
    [destruct Hin|].
  simpl. destruct Hin as [-> | Hin].
  - apply income_stays_infinite; [exact Hl|].
    unfold pass. rewrite Ha. simpl. rewrite Hinf. now apply add_infinity_r.
  - apply IH; trivial; unfold pass; destruct (isIncome typeOf tx); simpl;
      trivial; now apply js_add_nonneg.
Qed.

Lemma expense_turns_infinite (l : list T) (b : T) (acc : number * number) :
  Forall (fun tx => nonnegative (amountOf tx) = true) l ->
  In b l -> isIncome typeOf b = false -> amountOf b = Infinity ->
  nonnegative (fst acc) = true -> nonnegative (snd acc) = true ->
  snd (fold_left (pass typeOf amountOf) l acc) = Infinity.
Proof.
  intros Hl. revert acc.
  induction Hl as [|tx l Htx Hl IH]; intros acc Hin Hb Hinf H1 H2;
    [destruct Hin|].
  simpl. destruct Hin as [-> | Hin].
  - apply expense_stays_infinite; [exact Hl|].
    unfold pass. rewrite Hb. simpl. rewrite Hinf. now apply add_infinity_r.
  - apply IH; trivial; unfold pass; destruct (isIncome typeOf tx); simpl;
      trivial; now apply js_add_nonneg.
Qed.

End InfiniteTotals.

(** The form of [script.js] puts no upper bound on an amount: in a store
    built through the page, once an income record and a record of another
    type both hold the amount Infinity, both totals are Infinity, the
    balance is NaN, and the balance card reads "$NaN" without
    [text-danger]. *)
Theorem infinite_amounts_give_NaN_balance
  (es : list event) (a b : transaction) :
  let txs := transactions (session es) in
  let sm := updateSummary txs in
  In a txs -> In b txs ->
  type a = js "income" -> type b <> js "income" ->
  amount a = Infinity -> amount b = Infinity ->
  totalIncome sm = Infinity /\
  totalExpense sm = Infinity /\
  netBalance sm = NaN /\
  balance_text sm = js "$NaN" /\
  balance_text_danger sm = false.
Proof.
  cbv zeta. intros Ha Hb Ta Tb Ia Ib.
  pose proof (session_validated es init (Forall_nil _)) as V.
  fold (session es) in V.
  assert (P : Forall (fun tx => nonnegative (amount tx) = true)
                     (transactions (session es))).
  { eapply Forall_impl; [|exact V]. intros tx (_ & _ & _ & _ & H & _).
    now apply positive_nonnegative. }
  assert (Ga : isIncome type a = true)
    by (unfold isIncome; rewrite Ta; apply jsstring_eqb_refl).
  assert (Gb : isIncome type b = false).
  { unfold isIncome. destruct (jsstring_eqb (type b) (js "income")) eqn:E;
      [|reflexivity]. apply jsstring_eqb_eq in E. contradiction. }
  pose proof (income_turns_infinite _ type amount _ a (zero, zero)
                P Ha Ga Ia eq_refl eq_refl) as E1.
  pose proof (expense_turns_infinite _ type amount _ b (zero, zero)
                P Hb Gb Ib eq_refl eq_refl) as E2.
  pose proof (Script_updateSummary_fold (transactions (session es))) as E.
  cbv zeta in E. unfold scriptTotals in E. rewrite E1, E2 in E.
  injection E as F1 F2 F3.
  destruct (updateSummary_texts (transactions (session es))) as (_ & _ & T & D).
  cbv zeta in T, D. rewrite T, D, F3.
  repeat split; assumption.
Qed.

Lemma infinite_amounts_give_NaN_balance_witness :
  map amount (transactions (session hugeSession)) = [Infinity; Infinity] /\
  netBalance (updateSummary (transactions (session hugeSession))) = NaN /\
  balance_text (updateSummary (transactions (session hugeSession))) = js "$NaN".
Proof.
  assert (E : exists a b,
             transactions (session hugeSession) = [a; b] /\
             type a = js "income" /\ type b <> js "income" /\
             amount a = Infinity /\ amount b = Infinity).
  { vm_compute. eexists. eexists. split; [reflexivity|].
    split; [reflexivity|]. split; [discriminate|]. split; reflexivity. }
  destruct E as (a & b & L & Ta & Tb & Ia & Ib).
  assert (Ha : In a (transactions (session hugeSession))).
  { rewrite L. left. reflexivity. }
  assert (Hb : In b (transactions (session hugeSession))).
  { rewrite L. right. left. reflexivity. }
  pose proof (infinite_amounts_give_NaN_balance hugeSession a b
                Ha Hb Ta Tb Ia Ib) as R.
  cbv zeta in R. destruct R as (_ & _ & N & X & _).
  split; [vm_compute; reflexivity|]. split; [exact N | exact X].
Defined.

(** ** Queued deletes *)





Lemma formatCurrency_shape_witness :
  isFinite (parseFloat (js "-1234567.891")) = true /\
  formatCurrency (parseFloat (js "-1234567.891")) = js "-$1,234,567.89" /\
  exists whole d1 d2,
    0 <= whole /\ isDigit d1 = true /\ isDigit d2 = true /\
    formatCurrency (parseFloat (js "-1234567.891")) =
    (if js_lt (parseFloat (js "-1234567.891")) zero then js "-" else []) ++
    js "$" ++ group (digits whole) ++ js "." ++ [d1; d2].
Proof.
  assert (H : isFinite (parseFloat (js "-1234567.891")) = true)
    by (vm_compute; reflexivity).
  split; [exact H|]. split; [vm_compute; reflexivity|].
  exact (formatCurrency_shape (parseFloat (js "-1234567.891")) H).
Defined.
